(** * Posting test results to Azure DevOps: the client of [post_results.py]

    A shallow embedding of the class [AzureDevOpsClient] and of the pipeline
    that [main] runs with it, followed by the properties of the result
    merge, of the name resolution and of the two PATCH calls.

    Layout:
    - [Py]: JSON values as [json.load] builds them, the Python built-ins the
      client applies to them, exceptions, formatted strings;
    - [Http]: requests and responses of the [requests] session;
    - [Exec]: the state the client runs in and its state-and-exception monad;
    - [AzureDevOpsClient]: the methods of the class, one definition each;
    - lemmas on the merge loop, then the properties themselves.

    Conventions:
    - the dicts of [test_results] are objects of a heap, since the client
      updates them in place and hands them on in the payload; every other
      value is immutable here and is modelled by value;
    - the server is a script of responses, one taken by each request, and
      the requests issued are recorded in order;
    - the names asked for and the keys of [test_results] are strings, as the
      input document has them; whatever the server sends is any JSON value;
    - the clock is read by the caller: a method that stamps a time takes the
      formatted time as an argument;
    - logging is left out: it changes nothing the client computes. *)

From stdpp Require Import gmap strings list fin_maps pretty.
From Stdlib Require Import ZArith Ascii.

Set Warnings "-register-all".

(** ** Python values and built-ins *)

Module Py.

(** A value decoded from JSON.  A non-integer number is kept as its literal:
    nothing in the client looks inside one.  Objects are finite maps from
    string keys; the order of their keys plays no part in what follows. *)
Inductive json :=
  | JNull
  | JBool (b : bool)
  | JInt (z : Z)
  | JFloat (lit : string)
  | JStr (s : string)
  | JArr (items : list json)
  | JObj (fields : gmap string json).

(** A formatted string, kept as the pieces an f-string or [str.format] joins:
    literal text, a replacement field [{name}] still to be filled in, and
    [str(v)] of a value. *)
Inductive piece :=
  | Lit (s : string)
  | Hole (name : string)
  | Fmt (v : json).

Definition fstring := list piece.

Inductive exn :=
  | KeyError (key : string)
  | TypeError
  | AttributeError
  | ValueError (msg : fstring)
  | JSONDecodeError
  | HTTPError (status : Z)
  | ConnectionError.

(** Computations that may raise. *)
Definition res (A : Type) : Type := (exn + A)%type.

#[global] Instance res_ret : MRet res := λ A x, inr x.
#[global] Instance res_bind : MBind res := λ A B f m,
  match m with
  | inl e => inl e
  | inr x => f x
  end.

(** [str(v)] where it is a matter of course: [None], booleans, integers in
    decimal, strings.  The [repr] of floats, lists and dicts is left out. *)
Definition str (v : json) : option string :=
  match v with
  | JNull => Some "None"
  | JBool true => Some "True"
  | JBool false => Some "False"
  | JInt z => Some (pretty z)
  | JStr s => Some s
  | JFloat _ | JArr _ | JObj _ => None
  end.

(** The text of a formatted string, when all its pieces have one. *)
Fixpoint render (f : fstring) : option string :=
  match f with
  | [] => Some EmptyString
  | p :: f' =>
      s ← match p with
          | Lit s => Some s
          | Hole name => Some ("{" +:+ name +:+ "}")
          | Fmt v => str v
          end;
      t ← render f';
      Some (s +:+ t)
  end.

(** [v[key]] for a string [key]: only a dict can be subscripted by a string. *)
Definition getitem (v : json) (key : string) : res json :=
  match v with
  | JObj fields =>
      match fields !! key with
      | Some x => inr x
      | None => inl (KeyError key)
      end
  | _ => inl TypeError
  end.

Fixpoint chars (s : string) : list json :=
  match s with
  | EmptyString => []
  | String c s' => JStr (String c EmptyString) :: chars s'
  end.

(** The items a [for] loop or a comprehension draws from [v]: the elements of
    a list, the keys of a dict, the characters of a string.  Every loop of
    the client subscripts its item by a string at once, which neither a key
    nor a character allows: the order of the keys and the reading of a
    string as bytes make no difference to it. *)
Definition iter (v : json) : res (list json) :=
  match v with
  | JArr items => inr items
  | JObj fields => inr ((λ kv, JStr kv.1) <$> map_to_list fields)
  | JStr s => inr (chars s)
  | JNull | JBool _ | JInt _ | JFloat _ => inl TypeError
  end.

(** [v == s] for a string [s]: a string equals only the same string. *)
Definition eq_str (v : json) (s : string) : bool :=
  match v with
  | JStr s' => bool_decide (s' = s)
  | _ => false
  end.

(** [path.format] with keyword arguments [kwargs]. *)
Fixpoint format (path : fstring) (kwargs : list (string * json)) : res fstring :=
  match path with
  | [] => inr []
  | Hole name :: path' =>
      match list_find (λ kv, kv.1 = name) kwargs with
      | Some (_, (_, v)) => rest ← format path' kwargs; inr (Fmt v :: rest)
      | None => inl (KeyError name)
      end
  | p :: path' => rest ← format path' kwargs; inr (p :: rest)
  end.

Fixpoint lstrip_slash (s : string) : string :=
  match s with
  | String c s' => if Ascii.eqb c "/"%char then lstrip_slash s' else s
  | EmptyString => s
  end.

Fixpoint rstrip_slash (s : string) : string :=
  match s with
  | EmptyString => EmptyString
  | String c s' =>
      match rstrip_slash s' with
      | EmptyString => if Ascii.eqb c "/"%char then EmptyString else String c EmptyString
      | r => String c r
      end
  end.

End Py.

Import Py.

(** ** The HTTP session *)

Module Http.

Inductive verb := GET | POST | PATCH.

Record request := Request {
  method : verb;
  url : fstring;
  body : option json;
}.

(** What the client reads of a [requests.Response]: [parsed] is the result
    of [response.json()], [None] when the body is not JSON. *)
Record response := Response {
  status_code : Z;
  text : string;
  parsed : option json;
}.

End Http.

Import Http.

(** ** The state the client runs in *)

Module Exec.

(** A dict of [test_results] is an object: the client updates it in place
    and the payload refers to it.  Objects live in a heap and are named by
    their index in it; a value that is not a dict sits in the heap as well
    and is never written. *)
Abbreviation loc := nat (only parsing).

Record state := State {
  is_failure : bool;       (* the attribute [is_failure] of the client *)
  heap : list json;        (* the objects built so far *)
  sent : list request;     (* the requests issued so far, oldest first *)
  script : list response;  (* the answers the server is going to give *)
}.

(** A method call: it may raise, and what it did to the state up to there
    stays done. *)
Definition M (A : Type) : Type := state → res A * state.

#[global] Instance M_ret : MRet M := λ A x st, (inr x, st).
#[global] Instance M_bind : MBind M := λ A B f m st,
  match m st with
  | (inl e, st') => (inl e, st')
  | (inr x, st') => f x st'
  end.

Definition raise {A} (e : exn) : M A := λ st, (inl e, st).
Definition lift {A} (r : res A) : M A := λ st, (r, st).
Definition get_heap : M (list json) := λ st, (inr (heap st), st).
Definition get_is_failure : M bool := λ st, (inr (is_failure st), st).

Definition set_is_failure (b : bool) : M unit := λ st,
  (inr (), State b (heap st) (sent st) (script st)).

(** A new object, at the first free index. *)
Definition alloc (v : json) : M loc := λ st,
  (inr (length (heap st)),
   State (is_failure st) (heap st ++ [v]) (sent st) (script st)).

(** The object at [l].  Every location the client holds is bound; [JNull]
    stands in for one that is not. *)
Definition deref (h : list json) (l : loc) : json := default JNull (h !! l).

Definition store (l : loc) (v : json) : M unit := λ st,
  (inr (), State (is_failure st) (<[l := v]> (heap st)) (sent st) (script st)).

(** One request of the session: it is recorded, and answered by the next
    response of the script; with none left the connection fails. *)
Definition send (req : request) : M response := λ st,
  match script st with
  | [] => (inl ConnectionError,
           State (is_failure st) (heap st) (sent st ++ [req]) [])
  | r :: rest => (inr r,
           State (is_failure st) (heap st) (sent st ++ [req]) rest)
  end.

(** [response.raise_for_status()] of [requests]: statuses 400 to 599 raise. *)
Definition raise_for_status (r : response) : M unit :=
  if bool_decide (400 ≤ status_code r < 600)%Z
  then raise (HTTPError (status_code r))
  else mret ().

(** [response.json()]. *)
Definition response_json (r : response) : M json :=
  match parsed r with
  | Some j => mret j
  | None => raise JSONDecodeError
  end.

End Exec.

Import Exec.

(** ** The client *)

Module AzureDevOpsClient.

Definition API_VERSION : string := "api-version=7.1".
Definition RUN_URI : fstring := [Lit "/_apis/test/runs"].
Definition RESULTS_URI : fstring :=
  RUN_URI ++ [Lit "/"; Hole "run_id"; Lit "/results"].
Definition TEST_PLANS_URI : fstring := [Lit "/_apis/testplan/plans"].
Definition TEST_SUITES_URI : fstring :=
  TEST_PLANS_URI ++ [Lit "/"; Hole "plan_id"; Lit "/suites"].
Definition TEST_POINTS_URI : fstring :=
  [Lit "/_apis/test/Plans/"; Hole "plan_id"; Lit "/Suites/";
   Hole "suite_id"; Lit "/points"].

(** The attributes [__init__] sets; the session carries [token] as the
    password of its basic authentication.  [is_failure] is the field of that
    name in the state. *)
Record client := Client {
  org_url : string;
  project : string;
  token : string;
  ado_uri : string;
}.

Definition init (org_url project token : string) : client :=
  Client org_url project token
         (rstrip_slash org_url +:+ "/" +:+ lstrip_slash project).

Definition build_url (self : client) (path : fstring)
    (kwargs : list (string * json)) : res fstring :=
  formatted_path ← match kwargs with
                   | [] => inr path
                   | _ => format path kwargs
                   end;
  inr ([Lit (ado_uri self)] ++ formatted_path ++ [Lit "?"; Lit API_VERSION]).

Definition session_get (u : fstring) : M response := send (Request GET u None).
Definition session_post (u : fstring) (j : json) : M response :=
  send (Request POST u (Some j)).
Definition session_patch (u : fstring) (j : json) : M response :=
  send (Request PATCH u (Some j)).

(** The loop of [get_test_plan_id] and of [get_test_suite_id]: the [id] of
    the first item whose [name] is [name]; [None] when the loop runs out. *)
Fixpoint id_by_name (items : list json) (name : string) : res (option json) :=
  match items with
  | [] => inr None
  | item :: rest =>
      n ← getitem item "name";
      if eq_str n name
      then i ← getitem item "id"; inr (Some i)
      else id_by_name rest name
  end.

Definition get_test_plan_id (self : client) (test_plan_name : string) : M json :=
  u ← lift (build_url self TEST_PLANS_URI []);
  response ← session_get u;
  raise_for_status response;;
  ado_response ← response_json response;
  value ← lift (getitem ado_response "value");
  plans ← lift (iter value);
  found ← lift (id_by_name plans test_plan_name);
  match found with
  | Some i => mret i
  | None =>
      raise (ValueError
        [Lit "Test plan '"; Fmt (JStr test_plan_name); Lit "' not found"])
  end.

Definition get_test_suite_id (self : client) (test_plan_id : json)
    (test_suite_name : string) : M json :=
  u ← lift (build_url self TEST_SUITES_URI [("plan_id", test_plan_id)]);
  response ← session_get u;
  raise_for_status response;;
  ado_response ← response_json response;
  value ← lift (getitem ado_response "value");
  suites ← lift (iter value);
  found ← lift (id_by_name suites test_suite_name);
  match found with
  | Some i => mret i
  | None =>
      raise (ValueError
        [Lit "Test suite '"; Fmt (JStr test_suite_name);
         Lit "' not found in plan "; Fmt test_plan_id])
  end.

Definition get_test_points (self : client) (test_plan_id test_suite_id : json)
    : M (list json) :=
  u ← lift (build_url self TEST_POINTS_URI
              [("plan_id", test_plan_id); ("suite_id", test_suite_id)]);
  response ← session_get u;
  raise_for_status response;;
  ado_response ← response_json response;
  test_points ← lift (getitem ado_response "value");
  values ← lift (iter test_points);
  lift (mapM (λ value, getitem value "id") values).

Definition nl : string := String (ascii_of_nat 10) EmptyString.

(** [now] is the current UTC time as [strftime] has formatted it. *)
Definition create_test_run (self : client)
    (test_plan_name test_suite_name : string) (test_plan_id : json)
    (test_point_ids : list json) (now : string) : M json :=
  let payload : gmap string json :=
    <["name" := JStr ("Automation Test Run - " +:+ test_suite_name)]>
    (<["plan" := JObj {[ "id" := test_plan_id ]}]>
    (<["pointIds" := JArr test_point_ids]>
    (<["automated" := JBool true]>
    {[ "comment" :=
         JStr ("Automation Test Run Execution:" +:+ nl
               +:+ "- TestPlanName : " +:+ test_plan_name +:+ nl
               +:+ "- TestSuiteName : " +:+ test_suite_name +:+ nl
               +:+ "- Timestamp : " +:+ now) ]}))) in
  u ← lift (build_url self RUN_URI []);
  response ← session_post u (JObj payload);
  raise_for_status response;;
  ado_response ← response_json response;
  run_id ← lift (getitem ado_response "id");
  mret run_id.

(** [test_results.get(key, fallback)].  The keys of [test_results] are
    strings, so only a string finds one; a list or a dict cannot be hashed. *)
Definition results_get (test_results : gmap string loc) (key : json)
    (fallback : loc) : res loc :=
  match key with
  | JStr k => inr (default fallback (test_results !! k))
  | JArr _ | JObj _ => inl TypeError
  | JNull | JBool _ | JInt _ | JFloat _ => inr fallback
  end.

(** One turn of the loop of [process_test_results], up to the [append]: the
    object that goes into the payload.  The fallback dict is built before
    [get] is called, as an argument of the call. *)
Definition merge_point (test_results : gmap string loc) (point_result : json)
    : M loc :=
  test_case ← lift (getitem point_result "testCase");
  key ← lift (getitem test_case "id");
  fallback ← alloc (JObj {[ "outcome" := JStr "NotExecuted" ]});
  result ← lift (results_get test_results key fallback);
  h ← get_heap;
  match deref h result with
  | JObj fields =>
      point_id ← lift (getitem point_result "id");
      let updated :=
        <["priority" := default (JInt 2) (fields !! "priority")]>
        (<["state" := JStr "Completed"]>
        (<["id" := point_id]> fields)) in
      store result (JObj updated);;
      outcome ← lift (getitem (JObj updated) "outcome");
      (if eq_str outcome "Passed"
       then mret ()
       else
         store result
           (JObj (<["failureType" :=
                      default (JStr "New Issue") (updated !! "failureType")]>
                    updated));;
         set_is_failure true);;
      mret result
  | _ => raise AttributeError
  end.

Fixpoint merge_points (test_results : gmap string loc) (points : list json)
    (test_results_payload : list loc) : M (list loc) :=
  match points with
  | [] => mret test_results_payload
  | point_result :: rest =>
      result ← merge_point test_results point_result;
      merge_points test_results rest (test_results_payload ++ [result])
  end.

Definition process_test_results (self : client) (run_id : json)
    (test_results : gmap string loc) : M (list loc) :=
  u ← lift (build_url self RESULTS_URI [("run_id", run_id)]);
  response ← session_get u;
  raise_for_status response;;
  ado_response ← response_json response;
  test_points_results ← lift (getitem ado_response "value");
  points ← lift (iter test_points_results);
  merge_points test_results points [].

Definition unexpected (what : string) (response : response) : exn :=
  ValueError
    [Lit what; Lit "status_code: "; Fmt (JInt (status_code response));
     Lit " response_text: "; Fmt (JStr (text response))].

Definition post_test_results (self : client) (run_id : json)
    (test_results_payload : list loc) : M unit :=
  u ← lift (build_url self RESULTS_URI [("run_id", run_id)]);
  h ← get_heap;
  response ← session_patch u (JArr (deref h <$> test_results_payload));
  if bool_decide (status_code response ≠ 200%Z)
  then raise (unexpected
                "Unexpected Response while posting test results to ADO: "
                response)
  else mret ().

Definition complete_test_run (self : client) (run_id : json) (now : string)
    : M unit :=
  failed ← get_is_failure;
  let state : string :=
    if failed : bool then "NeedsInvestigation" else "Completed" in
  u ← lift (build_url self (RUN_URI ++ [Lit "/"; Fmt run_id]) []);
  response ← session_patch u
    (JObj (<["state" := JStr state]> {[ "completedDate" := JStr now ]}));
  if bool_decide (status_code response ≠ 200%Z)
  then raise (unexpected
                "Unexpected Response while completing the test run in ADO: "
                response)
  else mret ().

(** The body of [main] once the input file is read: [test_results] is the
    mapping under [testResults], its dicts in the heap; [t_create] and
    [t_complete] are the two readings of the clock.  A new client finds
    [is_failure] as the class declares it, [False]. *)
Definition main (org_url project token : string)
    (test_plan_name test_suite_name : string)
    (test_results : gmap string loc) (t_create t_complete : string) : M unit :=
  let ado_client := init org_url project token in
  set_is_failure false;;
  test_plan_id ← get_test_plan_id ado_client test_plan_name;
  test_suite_id ← get_test_suite_id ado_client test_plan_id test_suite_name;
  test_points ← get_test_points ado_client test_plan_id test_suite_id;
  run_id ← create_test_run ado_client test_plan_name test_suite_name
             test_plan_id test_points t_create;
  test_results_payload ← process_test_results ado_client run_id test_results;
  post_test_results ado_client run_id test_results_payload;;
  complete_test_run ado_client run_id t_complete.

End AzureDevOpsClient.

Import AzureDevOpsClient.

(** ** Vocabulary of the properties *)

(** The fallback of [test_results.get] in [merge_point]. *)
Definition default_dict : gmap string json :=
  {[ "outcome" := JStr "NotExecuted" ]}.

(** What one turn of the loop makes of a dict with fields [fields] for a
    placeholder whose [id] is [point_id]. *)
Definition merged (fields : gmap string json) (point_id : json)
    : gmap string json :=
  let updated :=
    <["priority" := default (JInt 2) (fields !! "priority")]>
    (<["state" := JStr "Completed"]>
    (<["id" := point_id]> fields)) in
  match fields !! "outcome" with
  | Some o =>
      if eq_str o "Passed" then updated
      else <["failureType" :=
               default (JStr "New Issue") (fields !! "failureType")]> updated
  | None => updated
  end.

(** [point_result["testCase"]["id"]]. *)
Definition testcase_id (point_result : json) : res json :=
  test_case ← getitem point_result "testCase";
  getitem test_case "id".

(** The dict of [test_results] a placeholder finds, if any. *)
Definition hit (test_results : gmap string loc) (point_result : json)
    : option loc :=
  match testcase_id point_result with
  | inr (JStr k) => test_results !! k
  | _ => None
  end.

(** The object a placeholder ends up with: the dict it finds, or else the
    fallback built for it at index [n]. *)
Definition target (test_results : gmap string loc) (n : nat)
    (point_result : json) : loc :=
  default n (hit test_results point_result).

(** Field [key] of the dict at [l], if there is a dict and it has the key. *)
Definition field (h : list json) (l : loc) (key : string) : option json :=
  match h !! l with
  | Some (JObj fields) => fields !! key
  | _ => None
  end.

(** The record at [l] has an outcome, and it is ["Passed"]. *)
Definition passed (h : list json) (l : loc) : bool :=
  match field h l "outcome" with
  | Some o => eq_str o "Passed"
  | None => false
  end.

(** The record a placeholder ends up with passed: it finds a dict of
    [test_results], whose outcome in the heap [h] is ["Passed"]. *)
Definition point_passed (test_results : gmap string loc) (h : list json)
    (point_result : json) : bool :=
  match hit test_results point_result with
  | Some l => passed h l
  | None => false
  end.

(** Every dict [test_results] refers to is an object of the heap. *)
Definition results_bound (test_results : gmap string loc) (h : list json)
    : Prop :=
  ∀ k l, test_results !! k = Some l → l < length h.

(** The items a response to a GET carries under [value], as the client reads
    them: for [process_test_results] the placeholder records of the run, for
    the name resolutions the plans or the suites.  [None] when the method
    raises before it has them. *)
Definition served (r : response) : option (list json) :=
  if bool_decide (400 ≤ status_code r < 600)%Z then None
  else match parsed r with
       | Some ado_response =>
           match getitem ado_response "value" with
           | inr value =>
               match iter value with
               | inr points => Some points
               | inl _ => None
               end
           | inl _ => None
           end
       | None => None
       end.

(** The state once the session has sent [req] and taken the first response
    of the script. *)
Definition answered (req : request) (st : state) : state :=
  State (is_failure st) (heap st) (sent st ++ [req]) (tail (script st)).

Definition results_url (self : client) (run_id : json) : fstring :=
  [Lit (ado_uri self); Lit "/_apis/test/runs"; Lit "/"; Fmt run_id;
   Lit "/results"; Lit "?"; Lit "api-version=7.1"].

Definition run_url (self : client) (run_id : json) : fstring :=
  [Lit (ado_uri self); Lit "/_apis/test/runs"; Lit "/"; Fmt run_id;
   Lit "?"; Lit "api-version=7.1"].

(** The request [complete_test_run] issues to leave the run in [state]. *)
Definition completion_request (self : client) (run_id : json)
    (state now : string) : request :=
  Request PATCH (run_url self run_id)
    (Some (JObj (<["state" := JStr state]> {[ "completedDate" := JStr now ]}))).

(** A placeholder record the loop can merge: it has a string for the id of
    its test case and an [id] of its own, and the object it finds in
    [test_results], if any, is a dict with an outcome. *)
Definition point_ready (test_results : gmap string loc) (h : list json)
    (point_result : json) : Prop :=
  (∃ k, testcase_id point_result = inr (JStr k)) ∧
  (∃ pid, getitem point_result "id" = inr pid) ∧
  ∀ l, hit test_results point_result = Some l →
    ∃ fields, h !! l = Some (JObj fields) ∧ is_Some (fields !! "outcome").

(** The record [j] of a request body has an outcome, and it is ["Passed"]. *)
Definition record_passed (j : json) : bool :=
  match getitem j "outcome" with
  | inr o => eq_str o "Passed"
  | inl _ => false
  end.

(** A computation that leaves the state alone. *)
Definition stateless {A} (m : M A) : Prop := ∀ st, (m st).2 = st.

(** The invariant of the loop of [process_test_results], started in [st0]:
    where things stand in [st] once the placeholders [done] have been
    merged into the payload [locs]. *)
Record merge_inv (test_results : gmap string loc) (st0 : state)
    (done : list json) (locs : list loc) (st : state) : Prop := MergeInv {
  inv_sent : sent st = sent st0;
  inv_script : script st = script st0;
  inv_length : length (heap st) = length (heap st0) + length done;
  inv_locs :
    locs = imap (λ i p, target test_results (length (heap st0) + i) p) done;
  inv_old : ∀ l, l < length (heap st0) →
    match last (filter (λ p, hit test_results p = Some l) done) with
    | None => heap st !! l = heap st0 !! l
    | Some p => ∃ fields pid,
        heap st0 !! l = Some (JObj fields) ∧ getitem p "id" = inr pid ∧
        is_Some (fields !! "outcome") ∧
        heap st !! l = Some (JObj (merged fields pid))
    end;
  inv_new : ∀ i p, done !! i = Some p →
    match hit test_results p with
    | Some _ => heap st !! (length (heap st0) + i) = Some (JObj default_dict)
    | None => ∃ pid,
        getitem p "id" = inr pid ∧
        heap st !! (length (heap st0) + i)
          = Some (JObj (merged default_dict pid))
    end;
  inv_flag :
    is_failure st
    = is_failure st0
      || existsb (λ p, negb (point_passed test_results (heap st0) p)) done;
}.

(** The errors of the two name resolutions. *)
Definition plan_not_found (test_plan_name : string) : exn :=
  ValueError [Lit "Test plan '"; Fmt (JStr test_plan_name); Lit "' not found"].

Definition suite_not_found (test_suite_name : string) (test_plan_id : json)
    : exn :=
  ValueError [Lit "Test suite '"; Fmt (JStr test_suite_name);
              Lit "' not found in plan "; Fmt test_plan_id].

(** ** Vocabulary of the further properties *)

Definition plans_url (self : client) : fstring :=
  [Lit (ado_uri self); Lit "/_apis/testplan/plans"; Lit "?";
   Lit "api-version=7.1"].

Definition suites_url (self : client) (plan_id : json) : fstring :=
  [Lit (ado_uri self); Lit "/_apis/testplan/plans"; Lit "/"; Fmt plan_id;
   Lit "/suites"; Lit "?"; Lit "api-version=7.1"].

Definition points_url (self : client) (plan_id suite_id : json) : fstring :=
  [Lit (ado_uri self); Lit "/_apis/test/Plans/"; Fmt plan_id;
   Lit "/Suites/"; Fmt suite_id; Lit "/points"; Lit "?";
   Lit "api-version=7.1"].

Definition runs_url (self : client) : fstring :=
  [Lit (ado_uri self); Lit "/_apis/test/runs"; Lit "?";
   Lit "api-version=7.1"].

(** The request goes to the project of the client and names the version of
    the API, as [build_url] has it. *)
Definition versioned (self : client) (req : request) : Prop :=
  ∃ path,
    url req = [Lit (ado_uri self)] ++ path ++ [Lit "?"; Lit API_VERSION].

(** The call [m], started in [st], issues the one request [req] and takes
    one response, whether it returns or raises. *)
Definition issues {A} (m : M A) (st : state) (req : request) : Prop :=
  sent (m st).2 = sent st ++ [req] ∧ script (m st).2 = tail (script st).


(** What [result.update] makes of a dict, before its outcome is looked at. *)
Definition stamped (fields : gmap string json) (point_id : json)
    : gmap string json :=
  <["priority" := default (JInt 2) (fields !! "priority")]>
  (<["state" := JStr "Completed"]>
  (<["id" := point_id]> fields)).

Fixpoint slashes (n : nat) : string :=
  match n with
  | 0 => EmptyString
  | S n' => String "/" (slashes n')
  end.


(** ** The scenarios of the specification *)

Module Scenario.

Definition obj (l : list (string * json)) : json := JObj (list_to_map l).

(** An answer with status 200 and a JSON body; its text is never read. *)
Definition ok (j : json) : response := Response 200 EmptyString (Some j).

Definition listing (items : list json) : response :=
  ok (obj [("value", JArr items)]).

Definition named (id : Z) (name : string) : json :=
  obj [("id", JInt id); ("name", JStr name)].

(** A placeholder record of the run: its own id and that of its test case. *)
Definition point (id : Z) (test_case : string) : json :=
  obj [("id", JInt id); ("testCase", obj [("id", JStr test_case)])].

Definition plans : response := listing [named 1 "A"; named 2 "B"].
Definition suites : response := listing [named 10 "S"].
Definition created : response := ok (obj [("id", JInt 9)]).

Definition passed_record : json := obj [("outcome", JStr "Passed")].
Definition failed_record : json :=
  obj [("outcome", JStr "Failed"); ("priority", JInt 1);
       ("failureType", JStr "Known Issue"); ("comment", JStr "flaky")].

Definition ado_client : client :=
  init "https://dev.azure.com/org/" "/proj" "token".

(** A client that has done nothing yet, with the objects [h] at hand and
    the server about to give [answers]. *)
Definition start (h : list json) (answers : list response) : state :=
  State false h [] answers.

(** Two results, one failed and one passed; three placeholders: two for
    the test case of the first result, and between them one that no result
    is for.  No placeholder is for the second result. *)
Definition results : gmap string loc := {[ "123" := 0; "456" := 1 ]}.
Definition placeholders : list json :=
  [point 55 "123"; point 77 "999"; point 56 "123"].
Definition mixed : state :=
  start [failed_record; passed_record] [listing placeholders; ok JNull].
Definition merged_mixed : state :=
  (process_test_results ado_client (JInt 9) results mixed).2.

(** One result, passed, for the one placeholder. *)
Definition all_passed : state :=
  start [passed_record] [listing [point 55 "123"]; ok JNull; ok JNull].

(** One result, passed, and a placeholder that no result is for. *)
Definition passed_and_more : state :=
  start [passed_record]
    [listing [point 55 "123"; point 77 "999"]; ok JNull; ok JNull].

(** A whole run of [main]: the plan B, the suite S with the point 77, the
    run 9, and the placeholder of the run, for a test case without result. *)
Definition unmatched_run : state :=
  start []
    [plans; suites; listing [named 77 "p"]; created;
     listing [point 77 "999"]; ok JNull; ok JNull].

(** The second result has no outcome. *)
Definition no_outcome_record : json := obj [("priority", JInt 3)].
Definition broken : state :=
  start [passed_record; no_outcome_record]
    [listing [point 55 "123"; point 56 "456"]].

(** The placeholders of [mixed], served twice. *)
Definition mixed_twice : state :=
  start [failed_record; passed_record]
    [listing placeholders; listing placeholders].

(** A placeholder whose test-case id is the number 123, not the string. *)
Definition numbered_point : json :=
  obj [("id", JInt 88); ("testCase", obj [("id", JInt 123)])].
Definition numbered : state :=
  start [passed_record] [listing [numbered_point]].

(** A plan without a name before the plan B. *)
Definition nameless : state :=
  start [] [listing [obj [("id", JInt 1)]; named 2 "B"]].

End Scenario.

(** ** The monad *)

Lemma bind_inr {A B} (m : M A) (f : A → M B) st b st' :
  (m ≫= f) st = (inr b, st') ↔
  ∃ a st1, m st = (inr a, st1) ∧ f a st1 = (inr b, st').
Proof.
  unfold mbind, M_bind. destruct (m st) as [[e|a] st1]; split.
  all: try (intros [=]; fail).
  - intros (? & ? & [=] & _).
  - eauto.
  - intros (? & ? & [= -> ->] & ?). done.
Qed.

Lemma bind_run {A B} (m : M A) (f : A → M B) st :
  (m ≫= f) st
  = match m st with
    | (inl e, st') => (inl e, st')
    | (inr x, st') => f x st'
    end.
Proof. reflexivity. Qed.

Lemma lift_inr {A} (r : res A) st a st' :
  lift r st = (inr a, st') ↔ r = inr a ∧ st' = st.
Proof. unfold lift. split; [intros [= -> ->]|intros [-> ->]]; done. Qed.

Lemma deref_obj h l fields :
  deref h l = JObj fields ↔ h !! l = Some (JObj fields).
Proof.
  unfold deref. destruct (h !! l) as [c|]; simpl; split; congruence.
Qed.

(** ** One dict, one turn of the loop *)

Lemma merged_outcome fields pid :
  merged fields pid !! "outcome" = fields !! "outcome".
Proof.
  unfold merged. destruct (fields !! "outcome") as [o|] eqn:Ho;
    [destruct (eq_str o "Passed")|]; by rewrite !lookup_insert_ne.
Qed.

Lemma merged_id fields pid : merged fields pid !! "id" = Some pid.
Proof.
  unfold merged. destruct (fields !! "outcome") as [o|];
    [destruct (eq_str o "Passed")|];
    rewrite ?(lookup_insert_ne _ "failureType"), lookup_insert_ne,
      lookup_insert_ne, lookup_insert_eq by done; done.
Qed.

Lemma merged_state fields pid :
  merged fields pid !! "state" = Some (JStr "Completed").
Proof.
  unfold merged. destruct (fields !! "outcome") as [o|];
    [destruct (eq_str o "Passed")|];
    rewrite ?(lookup_insert_ne _ "failureType"), lookup_insert_ne,
      lookup_insert_eq by done; done.
Qed.

Lemma merged_priority fields pid :
  merged fields pid !! "priority"
  = Some (default (JInt 2) (fields !! "priority")).
Proof.
  unfold merged. destruct (fields !! "outcome") as [o|];
    [destruct (eq_str o "Passed")|];
    rewrite ?(lookup_insert_ne _ "failureType"), lookup_insert_eq by done;
    done.
Qed.

Lemma merged_failureType fields pid :
  merged fields pid !! "failureType"
  = match fields !! "outcome" with
    | Some o =>
        if eq_str o "Passed" then fields !! "failureType"
        else Some (default (JStr "New Issue") (fields !! "failureType"))
    | None => fields !! "failureType"
    end.
Proof.
  unfold merged. destruct (fields !! "outcome") as [o|];
    [destruct (eq_str o "Passed")|];
    rewrite ?lookup_insert_eq, ?lookup_insert_ne by done; done.
Qed.

Lemma merged_other fields pid key :
  key ≠ "id" → key ≠ "state" → key ≠ "priority" → key ≠ "failureType" →
  merged fields pid !! key = fields !! key.
Proof.
  intros. unfold merged. destruct (fields !! "outcome") as [o|];
    [destruct (eq_str o "Passed")|]; by rewrite !lookup_insert_ne.
Qed.

(** A second turn on the same dict only renews its [id]. *)
Lemma merged_again fields pid pid' :
  merged (merged fields pid) pid' = merged fields pid'.
Proof.
  apply map_eq. intros key.
  destruct (decide (key = "id")) as [->|].
  { by rewrite !merged_id. }
  destruct (decide (key = "state")) as [->|].
  { by rewrite !merged_state. }
  destruct (decide (key = "priority")) as [->|].
  { by rewrite !merged_priority. }
  destruct (decide (key = "failureType")) as [->|].
  { rewrite !merged_failureType, merged_outcome.
    destruct (fields !! "outcome") as [o|]; [|done].
    by destruct (eq_str o "Passed"). }
  by rewrite !merged_other.
Qed.

Lemma merged_default pid :
  merged default_dict pid
  = <["failureType" := JStr "New Issue"]>
    (<["priority" := JInt 2]>
    (<["state" := JStr "Completed"]>
    (<["id" := pid]> {[ "outcome" := JStr "NotExecuted" ]}))).
Proof. reflexivity. Qed.

Lemma results_get_target tr p key n l :
  testcase_id p = inr key → results_get tr key n = inr l → l = target tr n p.
Proof.
  unfold target, hit, results_get. intros -> H.
  destruct key; by inversion H.
Qed.

Lemma merge_point_inr tr p st l st' :
  merge_point tr p st = (inr l, st') →
  ∃ pid fields o,
    getitem p "id" = inr pid ∧
    l = target tr (length (heap st)) p ∧
    (heap st ++ [JObj default_dict]) !! l = Some (JObj fields) ∧
    fields !! "outcome" = Some o ∧
    st' = State (is_failure st || negb (eq_str o "Passed"))
                (<[l := JObj (merged fields pid)]>
                   (heap st ++ [JObj default_dict]))
                (sent st) (script st).
Proof.
  unfold merge_point. intros H.
  apply bind_inr in H as (tc & s1 & [Htc ->]%lift_inr & H).
  apply bind_inr in H as (key & s1 & [Hkey ->]%lift_inr & H).
  apply bind_inr in H as (fb & s1 & Hal & H).
  unfold alloc in Hal. injection Hal as <- <-.
  apply bind_inr in H as (res & s1 & [Hres ->]%lift_inr & H).
  apply bind_inr in H as (h & s1 & Hh & H).
  unfold get_heap in Hh. injection Hh as <- <-. simpl in H.
  fold default_dict in H.
  destruct (deref _ res) as [| | | | | |fields] eqn:Hd; try (by inversion H).
  apply deref_obj in Hd.
  apply bind_inr in H as (pid & s1 & [Hpid ->]%lift_inr & H).
  apply bind_inr in H as ([] & s1 & Hst & H).
  unfold store in Hst. injection Hst as <-. simpl in H.
  apply bind_inr in H as (o & s1 & [Ho ->]%lift_inr & H).
  apply bind_inr in H as ([] & s1 & Hif & H).
  injection H as <- <-.
  unfold getitem in Ho. rewrite !lookup_insert_ne in Ho by done.
  destruct (fields !! "outcome") as [o'|] eqn:Hout; [|done].
  injection Ho as ->.
  exists pid, fields, o. split_and!; try done.
  { apply (results_get_target _ _ key); [|done].
    unfold testcase_id. by rewrite Htc. }
  unfold merged. rewrite Hout.
  destruct (eq_str o "Passed").
  - injection Hif as <-. simpl. by rewrite orb_false_r.
  - apply bind_inr in Hif as ([] & s2 & Hs & Hf).
    unfold store in Hs. injection Hs as <-.
    unfold set_is_failure in Hf. injection Hf as <-. simpl.
    rewrite orb_true_r, list_insert_insert_eq.
    rewrite !lookup_insert_ne by done. done.
Qed.

(** ** The loop *)

(** Whatever one turn carries over from the placeholders done to those done
    and one more holds of the whole list when the loop returns. *)
Lemma merge_points_invariant tr (P : list json → list loc → state → Prop) :
  (∀ done locs st p l st1,
      P done locs st → merge_point tr p st = (inr l, st1) →
      P (done ++ [p]) (locs ++ [l]) st1) →
  ∀ pts done acc st payload st',
    P done acc st →
    merge_points tr pts acc st = (inr payload, st') →
    P (done ++ pts) payload st'.
Proof.
  intros Hstep pts. induction pts as [|p pts IH]; intros done acc st payload st' HP H.
  - injection H as <- <-. by rewrite app_nil_r.
  - simpl in H. apply bind_inr in H as (l & st1 & Hp & H).
    rewrite cons_middle, (assoc_L (++)). eapply IH; [|done]. eauto.
Qed.

Lemma merge_inv_start tr st0 : merge_inv tr st0 [] [] st0.
Proof.
  constructor; simpl; try done. by rewrite orb_false_r.
Qed.

Lemma hit_bound tr h p l : results_bound tr h → hit tr p = Some l → l < length h.
Proof.
  unfold hit. intros Hwf Hh.
  destruct (testcase_id p) as [|[]]; try done. by eapply Hwf.
Qed.

Lemma merge_inv_step tr st0 :
  results_bound tr (heap st0) →
  ∀ done locs st p l st1,
    merge_inv tr st0 done locs st → merge_point tr p st = (inr l, st1) →
    merge_inv tr st0 (done ++ [p]) (locs ++ [l]) st1.
Proof.
  intros Hwf done locs st p l st1
    [Hsent Hscript Hlen Hlocs Hold Hnew Hflag] Hp.
  apply merge_point_inr in Hp as (pid & fields & o & Hpid & Hl & Hcell & Ho & ->).
  rewrite Hlen in Hl.
  assert (hit tr p = Some l ∧ l < length (heap st0)
          ∨ hit tr p = None ∧ l = length (heap st0) + length done) as Hcase.
  { unfold target in Hl. destruct (hit tr p) as [l'|] eqn:Hh; simpl in Hl; subst l.
    - left. eauto using hit_bound.
    - by right. }
  constructor; simpl.
  - done.
  - done.
  - rewrite length_insert, !length_app, Hlen. simpl. lia.
  - rewrite imap_app. simpl. by rewrite Nat.add_0_r, <- Hlocs, <- Hl.
  - intros l' Hl'. rewrite filter_app. specialize (Hold l' Hl').
    destruct (decide (hit tr p = Some l')) as [Hh|Hh].
    + rewrite filter_cons_True, filter_nil by done. rewrite last_snoc.
      destruct Hcase as [[Hh' _]|[Hh' _]]; [|congruence].
      assert (l' = l) as -> by congruence.
      rewrite lookup_app_l in Hcell by lia.
      assert (l < length (heap st ++ [JObj default_dict])).
      { rewrite length_app. lia. }
      rewrite list_lookup_insert_eq by done.
      destruct (last (filter _ done)) as [p'|].
      * destruct Hold as (f0 & pid' & H0 & Hpid' & Hout & Hcur).
        rewrite Hcur in Hcell. injection Hcell as <-.
        exists f0, pid. by rewrite merged_again.
      * rewrite Hold in Hcell. exists fields, pid. by rewrite Ho.
    + rewrite filter_cons_False, filter_nil, app_nil_r by done.
      assert (l ≠ l'). { destruct Hcase as [[? ?]|[? ?]]; [by intros ->|lia]. }
      rewrite list_lookup_insert_ne by done. by rewrite lookup_app_l by lia.
  - intros i q [[Hi Hq]|[-> <-]]%lookup_snoc_Some.
    + specialize (Hnew i q Hq).
      assert (l ≠ length (heap st0) + i).
      { destruct Hcase as [[? ?]|[? ?]]; lia. }
      rewrite list_lookup_insert_ne by done. by rewrite lookup_app_l by lia.
    + destruct Hcase as [[Hh Hlt]|[Hh ->]]; rewrite Hh.
      * rewrite list_lookup_insert_ne by lia.
        rewrite lookup_app_r by lia.
        by replace (length (heap st0) + length done - length (heap st)) with 0
          by lia.
      * exists pid. split; [done|].
        rewrite lookup_app_r in Hcell by lia.
        replace (length (heap st0) + length done - length (heap st)) with 0
          in Hcell by lia.
        injection Hcell as <-.
        rewrite list_lookup_insert_eq; [done|]. rewrite length_app. simpl. lia.
  - rewrite existsb_app. simpl. rewrite orb_false_r, Hflag, <- orb_assoc.
    do 3 f_equal. unfold point_passed.
    destruct Hcase as [[Hh Hlt]|[Hh ->]]; rewrite Hh.
    + specialize (Hold l Hlt). rewrite lookup_app_l in Hcell by lia.
      unfold passed, field.
      destruct (last (filter _ done)) as [p'|].
      * destruct Hold as (f0 & pid' & -> & Hpid' & _ & Hcur).
        rewrite Hcur in Hcell. injection Hcell as <-.
        rewrite merged_outcome in Ho. by rewrite Ho.
      * rewrite <- Hold, Hcell. by rewrite Ho.
    + rewrite lookup_app_r in Hcell by lia.
      replace (length (heap st0) + length done - length (heap st)) with 0
        in Hcell by lia.
      injection Hcell as <-. by injection Ho as <-.
Qed.

(** What holds when the loop returns. *)
Lemma merge_points_inr tr pts st payload st' :
  results_bound tr (heap st) →
  merge_points tr pts [] st = (inr payload, st') →
  merge_inv tr st pts payload st'.
Proof.
  intros Hwf H.
  apply (merge_points_invariant tr (merge_inv tr st)
           (merge_inv_step tr st Hwf) pts [] [] st payload st'); [|done].
  apply merge_inv_start.
Qed.

(** ** The methods, run *)

Lemma build_url_results self run_id :
  build_url self RESULTS_URI [("run_id", run_id)]
  = inr (results_url self run_id).
Proof. reflexivity. Qed.

Lemma build_url_run self run_id :
  build_url self (RUN_URI ++ [Lit "/"; Fmt run_id]) []
  = inr (run_url self run_id).
Proof. reflexivity. Qed.

(** [process_test_results] sends its GET; when the answer carries placeholder
    records the loop runs on them, and otherwise the call raises with nothing
    else done. *)
Lemma process_test_results_run self run_id tr st :
  process_test_results self run_id tr st
  = let st1 := answered (Request GET (results_url self run_id) None) st in
    match script st with
    | [] => (inl ConnectionError, st1)
    | resp :: _ =>
        if bool_decide (400 ≤ status_code resp < 600)%Z
        then (inl (HTTPError (status_code resp)), st1)
        else match parsed resp with
             | None => (inl JSONDecodeError, st1)
             | Some j =>
                 match getitem j "value" with
                 | inl e => (inl e, st1)
                 | inr v =>
                     match iter v with
                     | inl e => (inl e, st1)
                     | inr pts => merge_points tr pts [] st1
                     end
                 end
             end
    end.
Proof.
  unfold process_test_results, answered.
  rewrite bind_run, build_url_results. unfold lift at 1.
  rewrite bind_run. unfold session_get, send.
  destruct (script st) as [|resp rest]; [done|]. cbn [tail].
  rewrite bind_run. unfold raise_for_status.
  destruct (bool_decide _); [done|]. cbn [mret M_ret].
  rewrite bind_run. unfold response_json.
  destruct (parsed resp) as [j|]; [|done]. cbn [mret M_ret].
  rewrite bind_run. unfold lift at 1.
  destruct (getitem j "value") as [e|v]; [done|].
  rewrite bind_run. unfold lift at 1.
  by destruct (iter v) as [e|pts].
Qed.

Lemma process_test_results_served self run_id tr st resp rest pts :
  script st = resp :: rest → served resp = Some pts →
  process_test_results self run_id tr st
  = merge_points tr pts []
      (answered (Request GET (results_url self run_id) None) st).
Proof.
  intros Hs Hpts. rewrite process_test_results_run, Hs. cbn zeta.
  unfold served in Hpts.
  destruct (bool_decide _); [done|].
  destruct (parsed resp) as [j|]; [|done].
  destruct (getitem j "value") as [e|v]; [done|].
  destruct (iter v) as [e|pts']; [done|]. by injection Hpts as ->.
Qed.

Lemma process_test_results_inr self run_id tr st payload st' :
  process_test_results self run_id tr st = (inr payload, st') →
  ∃ resp rest pts,
    script st = resp :: rest ∧ served resp = Some pts ∧
    merge_points tr pts []
      (answered (Request GET (results_url self run_id) None) st)
    = (inr payload, st').
Proof.
  rewrite process_test_results_run. cbn zeta. unfold served. intros H.
  destruct (script st) as [|resp rest]; [done|].
  exists resp, rest.
  destruct (bool_decide _); [done|].
  destruct (parsed resp) as [j|]; [|done].
  destruct (getitem j "value") as [e|v]; [done|].
  destruct (iter v) as [e|pts']; [done|]. by exists pts'.
Qed.

Lemma post_test_results_run self run_id payload st :
  post_test_results self run_id payload st
  = (match script st with
     | [] => inl ConnectionError
     | resp :: _ =>
         if bool_decide (status_code resp ≠ 200%Z)
         then inl (unexpected
                "Unexpected Response while posting test results to ADO: "
                resp)
         else inr ()
     end,
     answered (Request PATCH (results_url self run_id)
                 (Some (JArr (deref (heap st) <$> payload)))) st).
Proof.
  unfold post_test_results, answered.
  rewrite bind_run, build_url_results. unfold lift at 1.
  rewrite bind_run. unfold get_heap.
  rewrite bind_run. unfold session_patch, send.
  destruct (script st) as [|resp rest]; [done|]. cbn [tail].
  by destruct (bool_decide _).
Qed.

Lemma complete_test_run_run self run_id now st :
  complete_test_run self run_id now st
  = (match script st with
     | [] => inl ConnectionError
     | resp :: _ =>
         if bool_decide (status_code resp ≠ 200%Z)
         then inl (unexpected
                "Unexpected Response while completing the test run in ADO: "
                resp)
         else inr ()
     end,
     answered (completion_request self run_id
                 (if is_failure st then "NeedsInvestigation" else "Completed")
                 now) st).
Proof.
  unfold complete_test_run, answered, completion_request.
  rewrite bind_run. unfold get_is_failure.
  rewrite bind_run, build_url_run. unfold lift at 1.
  rewrite bind_run. unfold session_patch, send.
  destruct (script st) as [|resp rest]; [done|]. cbn [tail].
  by destruct (bool_decide _).
Qed.

(** ** The failure flag, whatever the call does *)

Lemma merge_point_inl tr p st e st' :
  merge_point tr p st = (inl e, st') → is_failure st' = is_failure st.
Proof.
  unfold merge_point, mbind, M_bind, lift, alloc, get_heap, store,
    set_is_failure, raise, mret, M_ret.
  intros H. repeat (case_match; simplify_eq/=); done.
Qed.

(** One turn leaves the flag as it was, or sets it for a record that did not
    pass. *)
Lemma merge_point_flag tr p st :
  let st' := (merge_point tr p st).2 in
  is_failure st' = is_failure st
  ∨ is_failure st' = true
    ∧ passed (heap st ++ [JObj default_dict])
        (target tr (length (heap st)) p) = false.
Proof.
  destruct (merge_point tr p st) as [[e|l] st'] eqn:H; simpl.
  - left. by eapply merge_point_inl.
  - apply merge_point_inr in H
      as (pid & fields & o & Hpid & -> & Hcell & Ho & ->). simpl.
    unfold passed, field. rewrite Hcell, Ho.
    destruct (eq_str o "Passed"); simpl; [left|right].
    + by rewrite orb_false_r.
    + by rewrite orb_true_r.
Qed.

Lemma merge_point_flag_mono tr p st :
  is_failure st = true → is_failure (merge_point tr p st).2 = true.
Proof. destruct (merge_point_flag tr p st) as [->|[-> _]]; done. Qed.

Lemma merge_points_flag_mono tr pts acc st :
  is_failure st = true → is_failure (merge_points tr pts acc st).2 = true.
Proof.
  revert acc st. induction pts as [|p pts IH]; intros acc st Hst; [done|].
  simpl. rewrite bind_run.
  pose proof (merge_point_flag_mono tr p st Hst) as Hp.
  destruct (merge_point tr p st) as [[e|l] st1]; [done|]. by apply IH.
Qed.

(** One turn leaves the outcomes of the records of the heap as they were. *)
Lemma merge_point_passed tr p st l st' l' :
  merge_point tr p st = (inr l, st') → l' < length (heap st) →
  passed (heap st') l' = passed (heap st) l'.
Proof.
  intros (pid & fields & o & Hpid & -> & Hcell & Ho & ->)%merge_point_inr Hl'.
  simpl. unfold passed, field.
  destruct (decide (target tr (length (heap st)) p = l')) as [Heq|Hne].
  - rewrite Heq in *. rewrite list_lookup_insert_eq
      by (rewrite length_app; lia).
    rewrite lookup_app_l in Hcell by done.
    by rewrite Hcell, merged_outcome.
  - rewrite list_lookup_insert_ne by done. by rewrite lookup_app_l.
Qed.

Lemma merge_point_length tr p st l st' :
  merge_point tr p st = (inr l, st') → length (heap st) < length (heap st').
Proof.
  intros (pid & fields & o & Hpid & -> & Hcell & Ho & ->)%merge_point_inr.
  simpl. rewrite length_insert, length_app. simpl. lia.
Qed.

(** When every placeholder finds a record that passed, the loop leaves the
    flag as it was, whether it returns or raises. *)
Lemma merge_points_flag_passed tr pts acc st :
  (∀ p, p ∈ pts →
     ∃ l, hit tr p = Some l ∧ l < length (heap st) ∧ passed (heap st) l = true) →
  is_failure (merge_points tr pts acc st).2 = is_failure st.
Proof.
  revert acc st. induction pts as [|p pts IH]; intros acc st Hall; [done|].
  simpl. rewrite bind_run.
  destruct (Hall p) as (l & Hhit & Hl & Hpass); [by left|].
  destruct (merge_point_flag tr p st) as [Hf|[_ Hf]].
  - destruct (merge_point tr p st) as [[e|l1] st1] eqn:Hp; [done|].
    simpl in Hf. rewrite IH; [done|].
    intros q Hq. destruct (Hall q) as (l' & ? & ? & ?); [by right|].
    exists l'. split_and!; [done|..].
    + apply merge_point_length in Hp. lia.
    + by rewrite (merge_point_passed _ _ _ _ _ _ Hp).
  - unfold target in Hf. rewrite Hhit in Hf. simpl in Hf.
    unfold passed, field in *. rewrite lookup_app_l in Hf by done. congruence.
Qed.

Lemma process_test_results_flag_mono self run_id tr st :
  is_failure st = true →
  is_failure (process_test_results self run_id tr st).2 = true.
Proof.
  intros Hst. rewrite process_test_results_run. cbn zeta.
  repeat case_match; try done. by apply merge_points_flag_mono.
Qed.

Lemma post_test_results_flag self run_id payload st :
  is_failure (post_test_results self run_id payload st).2 = is_failure st.
Proof. by rewrite post_test_results_run. Qed.

Lemma complete_test_run_flag self run_id now st :
  is_failure (complete_test_run self run_id now st).2 = is_failure st.
Proof. by rewrite complete_test_run_run. Qed.

(** ** The payload, entry by entry *)

Lemma filter_none {A} (P : A → Prop) `{!∀ x, Decision (P x)} (l : list A) :
  (∀ x, x ∈ l → ¬ P x) → filter P l = [].
Proof.
  intros Hl. destruct (filter P l) as [|x l'] eqn:Hf; [done|].
  assert (x ∈ filter P l) as [? ?]%list_elem_of_filter by (rewrite Hf; left).
  naive_solver.
Qed.

(** The last of the items that satisfy [P] is the one with none after it. *)
Lemma last_filter_at {A} (P : A → Prop) `{!∀ x, Decision (P x)}
    (l : list A) i x :
  l !! i = Some x → P x →
  (∀ j y, i < j → l !! j = Some y → ¬ P y) →
  last (filter P l) = Some x.
Proof.
  intros Hi HP Hlater.
  rewrite <- (take_drop_middle l i x Hi), filter_app, filter_cons_True by done.
  rewrite (filter_none P (drop (S i) l)).
  - apply last_snoc.
  - intros y [j Hj]%list_elem_of_lookup. rewrite lookup_drop in Hj.
    apply (Hlater (S i + j)); [lia|done].
Qed.

(** Entry [i] of the payload is the object placeholder [i] ends up with: a
    dict of [test_results] as the loop has merged it, or the fallback built
    in that turn, merged once. *)
Lemma merge_inv_entry tr st0 pts payload st' :
  results_bound tr (heap st0) →
  merge_inv tr st0 pts payload st' →
  ∀ i l, payload !! i = Some l →
    ∃ p pid fields,
      pts !! i = Some p ∧
      is_Some (fields !! "outcome") ∧
      heap st' !! l = Some (JObj (merged fields pid)) ∧
      (hit tr p = Some l ∧ heap st0 !! l = Some (JObj fields)
       ∨ hit tr p = None ∧ l = length (heap st0) + i ∧
         heap st0 !! l = None ∧
         fields = default_dict ∧ getitem p "id" = inr pid).
Proof.
  intros Hwf [_ _ _ Hlocs Hold Hnew _] i l Hl.
  rewrite Hlocs in Hl. apply list_lookup_imap_Some in Hl as (p & Hp & ->).
  exists p. unfold target. destruct (hit tr p) as [l|] eqn:Hhit; simpl.
  - pose proof (hit_bound _ _ _ _ Hwf Hhit) as Hlt.
    specialize (Hold l Hlt).
    destruct (last (filter _ pts)) as [p'|] eqn:Hlast.
    + destruct Hold as (fields & pid & ? & ? & ? & ?).
      exists pid, fields. eauto 10.
    + apply last_None in Hlast.
      apply list_elem_of_lookup_2 in Hp.
      by destruct (filter_nil_not_elem_of _ _ p Hlast Hhit).
  - specialize (Hnew i p Hp). rewrite Hhit in Hnew.
    destruct Hnew as (pid & ? & ?). exists pid, default_dict.
    split_and!; try done. right. split_and!; try done.
    apply lookup_ge_None. lia.
Qed.

(** What [process_test_results] returns, in terms of the placeholder records
    the server sent. *)
Lemma process_test_results_inv self run_id tr st payload st' :
  results_bound tr (heap st) →
  process_test_results self run_id tr st = (inr payload, st') →
  ∃ resp rest pts,
    script st = resp :: rest ∧ served resp = Some pts ∧
    merge_inv tr (answered (Request GET (results_url self run_id) None) st)
      pts payload st'.
Proof.
  intros Hwf (resp & rest & pts & Hs & Hpts & H)%process_test_results_inr.
  exists resp, rest, pts. split_and!; try done. by apply merge_points_inr.
Qed.

(** The same of what [process_test_results] returns. *)
Lemma process_test_results_entry self run_id tr st payload st' :
  results_bound tr (heap st) →
  process_test_results self run_id tr st = (inr payload, st') →
  ∀ i l, payload !! i = Some l →
    ∃ resp rest pts p pid fields,
      script st = resp :: rest ∧ served resp = Some pts ∧
      pts !! i = Some p ∧
      is_Some (fields !! "outcome") ∧
      heap st' !! l = Some (JObj (merged fields pid)) ∧
      (hit tr p = Some l ∧ heap st !! l = Some (JObj fields)
       ∨ hit tr p = None ∧ l = length (heap st) + i ∧
         heap st !! l = None ∧
         fields = default_dict ∧ getitem p "id" = inr pid).
Proof.
  intros Hwf (resp & rest & pts & Hs & Hpts & Hinv)%process_test_results_inv
    i l Hi; [|done].
  destruct (merge_inv_entry tr (answered _ st) _ _ _ Hwf Hinv i l Hi)
    as (p & pid & fields & ? & ? & ? & ?).
  by exists resp, rest, pts, p, pid, fields.
Qed.

Lemma field_merged h l fields pid key :
  h !! l = Some (JObj (merged fields pid)) →
  field h l key = merged fields pid !! key.
Proof. unfold field. by intros ->. Qed.

Lemma field_obj h l fields key :
  h !! l = Some (JObj fields) → field h l key = fields !! key.
Proof. unfold field. by intros ->. Qed.

Lemma field_unbound h l key : h !! l = None → field h l key = None.
Proof. unfold field. by intros ->. Qed.

(** C2. Every record of the payload that [process_test_results] returns has
    [state] equal to ["Completed"] and has a [priority]: the priority of the
    input record when that had one, and 2 otherwise.  The input record of an
    entry is the dict at the same location of the heap the call started in;
    a fallback dict is not there yet and has no priority of its own. *)
Theorem process_test_results_state_priority self run_id tr st payload st' :
  results_bound tr (heap st) →
  process_test_results self run_id tr st = (inr payload, st') →
  ∀ l, l ∈ payload →
    field (heap st') l "state" = Some (JStr "Completed") ∧
    field (heap st') l "priority"
    = Some (default (JInt 2) (field (heap st) l "priority")).
Proof.
  intros Hwf H l [i Hi]%list_elem_of_lookup.
  destruct (process_test_results_entry _ _ _ _ _ _ Hwf H i l Hi)
    as (_ & _ & _ & p & pid & fields & _ & _ & _ & [o Ho] & Hcell & Hin).
  rewrite !(field_merged _ _ _ _ _ Hcell), merged_state, merged_priority.
  split; [done|].
  destruct Hin as [[_ H0]|(_ & _ & H0 & -> & _)].
  - by rewrite (field_obj _ _ _ _ H0).
  - by rewrite (field_unbound _ _ _ H0).
Qed.

(** C3. Every record of the returned payload has an outcome; when it is not
    ["Passed"] the record has a [failureType], the one of the input record
    when one was supplied and ["New Issue"] otherwise; when it is ["Passed"]
    the record has the [failureType] the input record had, and none when
    that had none. *)
Theorem process_test_results_failureType self run_id tr st payload st' :
  results_bound tr (heap st) →
  process_test_results self run_id tr st = (inr payload, st') →
  ∀ l, l ∈ payload →
    ∃ o, field (heap st') l "outcome" = Some o ∧
      field (heap st') l "failureType"
      = if eq_str o "Passed" then field (heap st) l "failureType"
        else Some (default (JStr "New Issue")
                     (field (heap st) l "failureType")).
Proof.
  intros Hwf H l [i Hi]%list_elem_of_lookup.
  destruct (process_test_results_entry _ _ _ _ _ _ Hwf H i l Hi)
    as (_ & _ & _ & p & pid & fields & _ & _ & _ & [o Ho] & Hcell & Hin).
  rewrite !(field_merged _ _ _ _ _ Hcell), merged_outcome, merged_failureType.
  rewrite Ho. exists o. split; [done|].
  destruct Hin as [[_ H0]|(_ & _ & H0 & -> & _)].
  - by rewrite (field_obj _ _ _ _ H0).
  - by rewrite (field_unbound _ _ _ H0).
Qed.

Lemma served_flag tr st0 pts payload st' p :
  merge_inv tr st0 pts payload st' → p ∈ pts →
  point_passed tr (heap st0) p = false → is_failure st' = true.
Proof.
  intros [_ _ _ _ _ _ ->] Hp Hnp. apply orb_true_iff. right.
  apply existsb_exists. exists p. split; [by apply list_elem_of_In|].
  by rewrite Hnp.
Qed.

(** C7. A placeholder whose test-case id is no key of [test_results] gets a
    dict of its own in the payload, which reads [id] of the placeholder,
    [outcome] ["NotExecuted"], [state] ["Completed"], [priority] 2 and
    [failureType] ["New Issue"] and nothing else; the flag is set, and the
    PATCH of [complete_test_run], issued after that of [post_test_results],
    leaves the run in state ["NeedsInvestigation"]. *)
Theorem unmatched_point_not_executed self run_id tr st resp rest pts
    payload st' i p now :
  results_bound tr (heap st) →
  script st = resp :: rest → served resp = Some pts →
  process_test_results self run_id tr st = (inr payload, st') →
  pts !! i = Some p → hit tr p = None →
  ∃ pid l,
    getitem p "id" = inr pid ∧
    payload !! i = Some l ∧ heap st !! l = None ∧
    heap st' !! l
    = Some (JObj (<["failureType" := JStr "New Issue"]>
                  (<["priority" := JInt 2]>
                  (<["state" := JStr "Completed"]>
                  (<["id" := pid]> {[ "outcome" := JStr "NotExecuted" ]}))))) ∧
    is_failure st' = true ∧
    let st2 := (post_test_results self run_id payload st').2 in
    sent (complete_test_run self run_id now st2).2
    = sent st2 ++ [completion_request self run_id "NeedsInvestigation" now].
Proof.
  intros Hwf Hs Hpts H Hp Hhit.
  rewrite (process_test_results_served _ _ _ _ _ _ _ Hs Hpts) in H.
  apply merge_points_inr in H as Hinv; [|done].
  pose proof (inv_new _ _ _ _ _ Hinv i p Hp) as Hnew. rewrite Hhit in Hnew.
  destruct Hnew as (pid & Hpid & Hcell). simpl in Hcell.
  assert (is_failure st' = true) as Hflag.
  { apply (served_flag _ _ _ _ _ p Hinv); [by eapply list_elem_of_lookup_2|].
    unfold point_passed. by rewrite Hhit. }
  exists pid, (length (heap st) + i). split_and!; try done.
  - rewrite (inv_locs _ _ _ _ _ Hinv), list_lookup_imap, Hp. simpl.
    unfold target. by rewrite Hhit.
  - apply lookup_ge_None. lia.
  - cbn zeta. rewrite complete_test_run_run, post_test_results_flag, Hflag.
    done.
Qed.

Lemma hit_key tr p k : testcase_id p = inr (JStr k) → hit tr p = tr !! k.
Proof. unfold hit. by intros ->. Qed.

Lemma hit_Some tr p l :
  hit tr p = Some l → ∃ k, testcase_id p = inr (JStr k) ∧ tr !! k = Some l.
Proof.
  unfold hit. destruct (testcase_id p) as [|[]]; try done. eauto.
Qed.

(** The dict of [test_results] that a placeholder finds: the loop has merged
    it in place, for the last time with the [id] of the last placeholder
    that found it. *)
Lemma merge_inv_hit tr st0 pts payload st' i p l :
  results_bound tr (heap st0) →
  merge_inv tr st0 pts payload st' →
  pts !! i = Some p → hit tr p = Some l →
  payload !! i = Some l ∧
  ∃ fields, heap st0 !! l = Some (JObj fields) ∧
    is_Some (fields !! "outcome") ∧
    ∃ pid, heap st' !! l = Some (JObj (merged fields pid)) ∧
      ∀ m r, pts !! m = Some r → hit tr r = Some l →
        (∀ m' r', m < m' → pts !! m' = Some r' → hit tr r' ≠ Some l) →
        getitem r "id" = inr pid.
Proof.
  intros Hwf Hinv Hp Hhit. split.
  { rewrite (inv_locs _ _ _ _ _ Hinv), list_lookup_imap, Hp. simpl.
    unfold target. by rewrite Hhit. }
  pose proof (inv_old _ _ _ _ _ Hinv l (hit_bound _ _ _ _ Hwf Hhit)) as Hold.
  destruct (last (filter _ pts)) as [p'|] eqn:Hlast.
  - destruct Hold as (fields & pid & H0 & Hpid & Hout & Hcell).
    exists fields. split_and!; try done. exists pid. split; [done|].
    intros m r Hr Hhr Hlater.
    rewrite (last_filter_at (λ p, hit tr p = Some l) pts m r) in Hlast
      by done.
    by injection Hlast as ->.
  - apply last_None in Hlast. apply list_elem_of_lookup_2 in Hp.
    by destruct (filter_nil_not_elem_of _ _ p Hlast Hhit).
Qed.

(** C9. [process_test_results] works on the dicts of its caller: for a
    placeholder whose test-case id is the key [k] of [test_results], the entry
    of the payload is the very object [test_results] holds under [k]; that
    object has got an [id], [state] ["Completed"] and a [priority], and a
    [failureType] when its outcome is not ["Passed"]; under every other key,
    and under [failureType] when the outcome is ["Passed"], it reads as it
    did before the call. *)
Theorem process_test_results_in_place self run_id tr st resp rest pts
    payload st' i p k l :
  results_bound tr (heap st) →
  script st = resp :: rest → served resp = Some pts →
  process_test_results self run_id tr st = (inr payload, st') →
  pts !! i = Some p → testcase_id p = inr (JStr k) → tr !! k = Some l →
  payload !! i = Some l ∧
  ∃ before after,
    heap st !! l = Some (JObj before) ∧
    heap st' !! l = Some (JObj after) ∧
    is_Some (after !! "id") ∧
    after !! "state" = Some (JStr "Completed") ∧
    after !! "priority" = Some (default (JInt 2) (before !! "priority")) ∧
    (passed (heap st) l = false →
       after !! "failureType"
       = Some (default (JStr "New Issue") (before !! "failureType"))) ∧
    (passed (heap st) l = true →
       after !! "failureType" = before !! "failureType") ∧
    (∀ key, key ≠ "id" → key ≠ "state" → key ≠ "priority" →
            key ≠ "failureType" → after !! key = before !! key).
Proof.
  intros Hwf Hs Hpts H Hp Hk Hl.
  rewrite (process_test_results_served _ _ _ _ _ _ _ Hs Hpts) in H.
  apply merge_points_inr in H as Hinv; [|done].
  assert (hit tr p = Some l) as Hhit by by rewrite (hit_key _ _ _ Hk).
  destruct (merge_inv_hit tr (answered _ st) _ _ _ _ _ _ Hwf Hinv Hp Hhit)
    as (Hpay & before & H0 & [o Ho] & pid & Hcell & _).
  split; [done|]. exists before, (merged before pid). simpl in H0.
  unfold passed. rewrite (field_obj _ _ _ _ H0), Ho.
  split_and!; try done.
  - by rewrite merged_id.
  - apply merged_state.
  - apply merged_priority.
  - intros Hnp. by rewrite merged_failureType, Ho, Hnp.
  - intros Hpass. by rewrite merged_failureType, Ho, Hpass.
  - intros. by apply merged_other.
Qed.

(** C10. Placeholders that share a test-case id [k], a key of
    [test_results], all get the one dict [test_results] holds under [k]: their
    entries of the payload are the same object, and its [id] is that of the
    last placeholder that found it, which is the last placeholder with
    test-case id [k] when no other key of [test_results] holds the same
    object. *)
Theorem duplicate_points_share_dict self run_id tr st resp rest pts
    payload st' i j p q k l :
  results_bound tr (heap st) →
  script st = resp :: rest → served resp = Some pts →
  process_test_results self run_id tr st = (inr payload, st') →
  i ≠ j → pts !! i = Some p → pts !! j = Some q →
  testcase_id p = inr (JStr k) → testcase_id q = inr (JStr k) →
  tr !! k = Some l →
  payload !! i = Some l ∧ payload !! j = Some l ∧
  (∀ m r, pts !! m = Some r → hit tr r = Some l →
     (∀ m' r', m < m' → pts !! m' = Some r' → hit tr r' ≠ Some l) →
     ∃ pid, getitem r "id" = inr pid ∧ field (heap st') l "id" = Some pid) ∧
  ((∀ k', tr !! k' = Some l → k' = k) →
   ∀ m r, pts !! m = Some r → testcase_id r = inr (JStr k) →
     (∀ m' r', m < m' → pts !! m' = Some r' →
               testcase_id r' ≠ inr (JStr k)) →
     ∃ pid, getitem r "id" = inr pid ∧ field (heap st') l "id" = Some pid).
Proof.
  intros Hwf Hs Hpts H Hij Hp Hq Hkp Hkq Hl.
  rewrite (process_test_results_served _ _ _ _ _ _ _ Hs Hpts) in H.
  apply merge_points_inr in H as Hinv; [|done].
  assert (hit tr p = Some l) as Hhp by by rewrite (hit_key _ _ _ Hkp).
  assert (hit tr q = Some l) as Hhq by by rewrite (hit_key _ _ _ Hkq).
  destruct (merge_inv_hit tr (answered _ st) _ _ _ _ _ _ Hwf Hinv Hp Hhp)
    as (Hpi & fields & H0 & _ & pid & Hcell & Hlast).
  destruct (merge_inv_hit tr (answered _ st) _ _ _ _ _ _ Hwf Hinv Hq Hhq) as (Hpj & _).
  assert (∀ m r, pts !! m = Some r → hit tr r = Some l →
     (∀ m' r', m < m' → pts !! m' = Some r' → hit tr r' ≠ Some l) →
     ∃ pid, getitem r "id" = inr pid ∧ field (heap st') l "id" = Some pid)
    as Hid.
  { intros m r Hr Hhr Hlater. exists pid. split; [by eapply Hlast|].
    by rewrite (field_merged _ _ _ _ _ Hcell), merged_id. }
  split_and!; try done.
  intros Hinj m r Hr Hkr Hlater. apply (Hid m r Hr).
  - by rewrite (hit_key _ _ _ Hkr).
  - intros m' r' Hm' Hr' (k' & Hk' & Hl')%hit_Some.
    apply (Hlater m' r' Hm' Hr'). by rewrite Hk', (Hinj k' Hl').
Qed.

(** ** The loop returns *)

Lemma merge_point_returns tr p st :
  point_ready tr (heap st) p → ∃ l st', merge_point tr p st = (inr l, st').
Proof.
  intros ([k Hk] & [pid Hpid] & Hhit).
  pose proof (hit_key tr p k Hk) as Hh.
  unfold testcase_id, mbind, res_bind in Hk.
  destruct (getitem p "testCase") as [e|tc] eqn:Htc; [done|].
  unfold merge_point.
  rewrite bind_run, Htc. unfold lift at 1.
  rewrite bind_run, Hk. unfold lift at 1.
  rewrite bind_run. unfold alloc.
  rewrite bind_run. unfold lift at 1. cbn [results_get heap].
  rewrite bind_run. unfold get_heap. cbn [heap]. fold default_dict.
  assert (∃ fields,
            deref (heap st ++ [JObj default_dict])
              (default (length (heap st)) (tr !! k)) = JObj fields ∧
            is_Some (fields !! "outcome")) as (fields & -> & [o Ho]).
  { rewrite <- Hh. destruct (hit tr p) as [l|]; simpl.
    - destruct (Hhit l eq_refl) as (fields & Hl & Hout).
      exists fields. split; [|done]. apply deref_obj.
      by apply lookup_app_l_Some.
    - exists default_dict. split; [|by eexists]. apply deref_obj.
      by rewrite lookup_app_r, Nat.sub_diag. }
  rewrite bind_run, Hpid. unfold lift at 1.
  rewrite bind_run. unfold store.
  rewrite bind_run. unfold lift at 1, getitem.
  rewrite !lookup_insert_ne, Ho by done.
  rewrite bind_run. destruct (eq_str o "Passed").
  - cbn [mret M_ret]. eauto.
  - rewrite bind_run. unfold store, set_is_failure. cbn [mret M_ret]. eauto.
Qed.

Lemma merge_points_returns tr pts acc st :
  (∀ p, p ∈ pts → point_ready tr (heap st) p) →
  ∃ payload st', merge_points tr pts acc st = (inr payload, st').
Proof.
  revert acc st. induction pts as [|p pts IH]; intros acc st Hall.
  { simpl. eauto. }
  destruct (merge_point_returns tr p st) as (l & st1 & Hp); [apply Hall; by left|].
  simpl. rewrite bind_run, Hp. apply IH.
  intros q Hq. destruct (Hall q) as (Hk & Hid & Hhit); [by right|].
  split_and!; try done. intros l' Hl'.
  destruct (Hhit l' Hl') as (fields' & Hcell' & Hout').
  apply merge_point_inr in Hp
    as (pid & fields & o & _ & _ & Hcell & Ho & ->). simpl.
  destruct (decide (l = l')) as [->|Hne].
  - rewrite list_lookup_insert_eq by (by eapply lookup_lt_Some).
    exists (merged fields pid). split; [done|].
    rewrite merged_outcome, Ho. by eexists.
  - rewrite list_lookup_insert_ne by done. exists fields'.
    split; [by apply lookup_app_l_Some|done].
Qed.

(** X1. When the server answers with placeholder records that can all be
    merged, [process_test_results] returns a payload. *)
Theorem process_test_results_returns self run_id tr st resp rest pts :
  script st = resp :: rest → served resp = Some pts →
  (∀ p, p ∈ pts → point_ready tr (heap st) p) →
  ∃ payload st',
    process_test_results self run_id tr st = (inr payload, st').
Proof.
  intros Hs Hpts Hall.
  rewrite (process_test_results_served _ _ _ _ _ _ _ Hs Hpts).
  by apply merge_points_returns.
Qed.

(** ** The flag and the state of the run *)

Lemma eq_str_true v s : eq_str v s = true ↔ v = JStr s.
Proof.
  destruct v; simpl; try (split; [discriminate|congruence]).
  rewrite bool_decide_eq_true. split; congruence.
Qed.

Lemma eq_str_false v s : eq_str v s = false ↔ v ≠ JStr s.
Proof. rewrite <- eq_str_true. by destruct (eq_str v s). Qed.

(** C1. When a record of the payload [process_test_results] returns has an
    outcome other than ["Passed"], the flag is set; no call of the client
    clears a flag that is set; [complete_test_run] patches the run to
    ["NeedsInvestigation"] when the flag is set and to ["Completed"] when it
    is not, so that after such a payload, and whatever came of posting it,
    the run is left in ["NeedsInvestigation"]. *)
Theorem failure_flag_decides_completion self run_id tr st payload st' now :
  results_bound tr (heap st) →
  process_test_results self run_id tr st = (inr payload, st') →
  ((∃ l o, l ∈ payload ∧ field (heap st') l "outcome" = Some o ∧
           o ≠ JStr "Passed") →
   is_failure st' = true ∧
   let st2 := (post_test_results self run_id payload st').2 in
   sent (complete_test_run self run_id now st2).2
   = sent st2 ++ [completion_request self run_id "NeedsInvestigation" now]) ∧
  (∀ s self' run_id' tr' payload' now',
     is_failure s = true →
     is_failure (process_test_results self' run_id' tr' s).2 = true ∧
     is_failure (post_test_results self' run_id' payload' s).2 = true ∧
     is_failure (complete_test_run self' run_id' now' s).2 = true) ∧
  (∀ s,
     sent (complete_test_run self run_id now s).2
     = sent s
       ++ [completion_request self run_id
             (if is_failure s then "NeedsInvestigation" else "Completed")
             now]).
Proof.
  intros Hwf H. split_and!.
  - intros (l & o & [i Hi]%list_elem_of_lookup & Ho & Hne).
    assert (is_failure st' = true) as Hflag.
    { pose proof H as (resp & rest & pts & _ & _ & Hinv)
        %process_test_results_inv; [|done].
      destruct (merge_inv_entry tr (answered _ st) _ _ _ Hwf Hinv i l Hi)
        as (p & pid & fields & Hp & _ & Hcell & Hin).
      apply (served_flag _ _ _ _ _ p Hinv); [by eapply list_elem_of_lookup_2|].
      rewrite (field_merged _ _ _ _ _ Hcell), merged_outcome in Ho.
      unfold point_passed.
      destruct Hin as [[-> H0]|(-> & _)]; [|done].
      unfold passed. rewrite (field_obj _ _ _ _ H0), Ho.
      by apply eq_str_false. }
    split; [done|]. cbn zeta.
    by rewrite complete_test_run_run, post_test_results_flag, Hflag.
  - intros s self' run_id' tr' payload' now' Hs. split_and!.
    + by apply process_test_results_flag_mono.
    + by rewrite post_test_results_flag.
    + by rewrite complete_test_run_flag.
  - intros s. by rewrite complete_test_run_run.
Qed.

(** C4, as the code has it.  When every placeholder the server sends finds
    a record of [test_results] whose outcome is ["Passed"],
    [process_test_results] leaves the flag as it was, whether it returns or
    raises; on a client whose flag was not set, [complete_test_run] then
    patches the run to ["Completed"]. *)
Theorem passed_results_leave_flag self run_id tr st resp rest pts now :
  script st = resp :: rest → served resp = Some pts →
  (∀ p, p ∈ pts → ∃ l, hit tr p = Some l ∧ passed (heap st) l = true) →
  let st' := (process_test_results self run_id tr st).2 in
  is_failure st' = is_failure st ∧
  (is_failure st = false →
   ∀ payload,
     let st2 := (post_test_results self run_id payload st').2 in
     sent (complete_test_run self run_id now st2).2
     = sent st2 ++ [completion_request self run_id "Completed" now]).
Proof.
  intros Hs Hpts Hall. cbn zeta.
  assert (is_failure (process_test_results self run_id tr st).2
          = is_failure st) as Hflag.
  { rewrite (process_test_results_served _ _ _ _ _ _ _ Hs Hpts).
    rewrite merge_points_flag_passed; [done|].
    intros p Hp. destruct (Hall p Hp) as (l & Hhit & Hpass).
    exists l. split_and!; try done. simpl.
    unfold passed, field in Hpass. apply lookup_lt_is_Some.
    by destruct (heap st !! l). }
  split; [done|]. intros Hunset payload.
  by rewrite complete_test_run_run, post_test_results_flag, Hflag, Hunset.
Qed.

(** ** Results no placeholder asks for *)

Lemma results_get_delete tr k key n :
  key ≠ JStr k → results_get (delete k tr) key n = results_get tr key n.
Proof.
  intros Hne. destruct key; try done. simpl.
  rewrite lookup_delete_ne; [done|]. congruence.
Qed.

Lemma merge_point_delete tr k p st :
  testcase_id p ≠ inr (JStr k) →
  merge_point (delete k tr) p st = merge_point tr p st.
Proof.
  intros Hne. unfold merge_point, mbind, M_bind, lift, alloc.
  unfold testcase_id, mbind, res_bind in Hne.
  destruct (getitem p "testCase") as [e|tc]; [done|].
  destruct (getitem tc "id") as [e|key]; [done|].
  rewrite results_get_delete; [done|]. congruence.
Qed.

Lemma merge_points_delete tr k pts acc st :
  (∀ p, p ∈ pts → testcase_id p ≠ inr (JStr k)) →
  merge_points (delete k tr) pts acc st = merge_points tr pts acc st.
Proof.
  revert acc st. induction pts as [|p pts IH]; intros acc st Hall; [done|].
  simpl. rewrite !bind_run, merge_point_delete by (apply Hall; left).
  destruct (merge_point tr p st) as [[e|l] st1]; [done|].
  apply IH. intros q Hq. apply Hall. by right.
Qed.

(** C8. An entry of [test_results] under a key [k] that is the test-case id
    of no placeholder is dropped without a word: the call does exactly what
    it does on the mapping without the entry, so that neither the payload
    nor the flag depend on it or on its outcome; and when nothing else in
    [test_results] refers to its dict, the dict is no entry of the payload
    and is left as it was. *)
Theorem unmatched_result_dropped self run_id tr st k :
  (∀ resp rest pts p,
     script st = resp :: rest → served resp = Some pts → p ∈ pts →
     testcase_id p ≠ inr (JStr k)) →
  process_test_results self run_id (delete k tr) st
  = process_test_results self run_id tr st ∧
  (∀ payload st' l,
     results_bound tr (heap st) →
     process_test_results self run_id tr st = (inr payload, st') →
     tr !! k = Some l → (∀ k', tr !! k' = Some l → k' = k) →
     (l ∉ payload) ∧ heap st' !! l = heap st !! l).
Proof.
  intros Hno. split.
  - rewrite !process_test_results_run. cbn zeta.
    destruct (script st) as [|resp rest] eqn:Hs; [done|].
    specialize (Hno resp rest). unfold served in Hno.
    destruct (bool_decide _); [done|].
    destruct (parsed resp) as [j|]; [|done].
    destruct (getitem j "value") as [e|v]; [done|].
    destruct (iter v) as [e|pts]; [done|].
    apply merge_points_delete. eauto.
  - intros payload st' l Hwf H Hl Hinj.
    pose proof H as (resp & rest & pts & Hs & Hpts & Hinv)
      %process_test_results_inv; [|done].
    assert (∀ p, p ∈ pts → hit tr p ≠ Some l) as Hnohit.
    { intros p Hp (k' & Hk' & Hl')%hit_Some.
      apply (Hno resp rest pts p Hs Hpts Hp). by rewrite Hk', (Hinj k' Hl'). }
    split.
    + intros [i Hi]%list_elem_of_lookup.
      destruct (merge_inv_entry tr (answered _ st) _ _ _ Hwf Hinv i l Hi)
        as (p & pid & fields & Hp & _ & _ & [[Hhit _]|(_ & Hfresh & _)]).
      * by apply (Hnohit p); [eapply list_elem_of_lookup_2|].
      * simpl in Hfresh. specialize (Hwf k l Hl). lia.
    + pose proof (inv_old _ _ _ _ _ Hinv l (Hwf k l Hl)) as Hold.
      by rewrite filter_none in Hold.
Qed.

(** ** Resolving names *)

Lemma id_by_name_first items name pre item post i :
  items = pre ++ item :: post →
  (∀ x, x ∈ pre → ∃ n, getitem x "name" = inr n ∧ n ≠ JStr name) →
  getitem item "name" = inr (JStr name) → getitem item "id" = inr i →
  id_by_name items name = inr (Some i).
Proof.
  intros -> Hpre Hname Hid. induction pre as [|x pre IH]; simpl.
  - rewrite Hname. simpl. rewrite bool_decide_true by done. by rewrite Hid.
  - destruct (Hpre x) as (n & -> & Hn%eq_str_false); [by left|]. simpl.
    rewrite Hn. apply IH. intros y Hy. apply Hpre. by right.
Qed.

Lemma id_by_name_none items name :
  (∀ x, x ∈ items → ∃ n, getitem x "name" = inr n ∧ n ≠ JStr name) →
  id_by_name items name = inr None.
Proof.
  induction items as [|x items IH]; intros Hall; [done|]. simpl.
  destruct (Hall x) as (n & -> & Hn%eq_str_false); [by left|]. simpl.
  rewrite Hn. apply IH. intros y Hy. apply Hall. by right.
Qed.

(** The loop returns an id only for a first match. *)
Lemma id_by_name_Some items name i :
  id_by_name items name = inr (Some i) →
  ∃ pre item post,
    items = pre ++ item :: post ∧
    (∀ x, x ∈ pre → ∃ n, getitem x "name" = inr n ∧ n ≠ JStr name) ∧
    getitem item "name" = inr (JStr name) ∧ getitem item "id" = inr i.
Proof.
  induction items as [|x items IH]; [done|]. simpl.
  destruct (getitem x "name") as [e|n] eqn:Hn; [done|]. simpl.
  destruct (eq_str n name) eqn:Heq.
  - apply eq_str_true in Heq as ->.
    destruct (getitem x "id") as [e|i'] eqn:Hi; [done|]. intros [= ->].
    exists [], x, items. split_and!; try done. by intros y ?%elem_of_nil.
  - intros (pre & item & post & -> & Hpre & ? & ?)%IH.
    exists (x :: pre), item, post. split_and!; try done.
    intros y [->|Hy]%elem_of_cons; [|by apply Hpre].
    exists n. split; [done|]. by apply eq_str_false.
Qed.

Lemma get_test_plan_id_result self name st resp rest items :
  script st = resp :: rest → served resp = Some items →
  (get_test_plan_id self name st).1
  = match id_by_name items name with
    | inl e => inl e
    | inr (Some i) => inr i
    | inr None => inl (plan_not_found name)
    end.
Proof.
  intros Hs Hitems. unfold get_test_plan_id, served in *.
  rewrite bind_run. unfold lift at 1. simpl.
  rewrite bind_run. unfold session_get, send. rewrite Hs.
  rewrite bind_run. unfold raise_for_status.
  destruct (bool_decide _); [done|]. cbn [mret M_ret].
  rewrite bind_run. unfold response_json.
  destruct (parsed resp) as [j|]; [|done]. cbn [mret M_ret].
  rewrite bind_run. unfold lift at 1.
  destruct (getitem j "value") as [e|v]; [done|].
  rewrite bind_run. unfold lift at 1.
  destruct (iter v) as [e|items']; [done|]. injection Hitems as ->.
  rewrite bind_run. unfold lift at 1.
  by destruct (id_by_name items name) as [e|[i|]].
Qed.

Lemma get_test_suite_id_result self plan_id name st resp rest items :
  script st = resp :: rest → served resp = Some items →
  (get_test_suite_id self plan_id name st).1
  = match id_by_name items name with
    | inl e => inl e
    | inr (Some i) => inr i
    | inr None => inl (suite_not_found name plan_id)
    end.
Proof.
  intros Hs Hitems. unfold get_test_suite_id, served in *.
  rewrite bind_run. unfold lift at 1. simpl.
  rewrite bind_run. unfold session_get, send. rewrite Hs.
  rewrite bind_run. unfold raise_for_status.
  destruct (bool_decide _); [done|]. cbn [mret M_ret].
  rewrite bind_run. unfold response_json.
  destruct (parsed resp) as [j|]; [|done]. cbn [mret M_ret].
  rewrite bind_run. unfold lift at 1.
  destruct (getitem j "value") as [e|v]; [done|].
  rewrite bind_run. unfold lift at 1.
  destruct (iter v) as [e|items']; [done|]. injection Hitems as ->.
  rewrite bind_run. unfold lift at 1.
  by destruct (id_by_name items name) as [e|[i|]].
Qed.

Lemma append_empty_r (s : string) : s +:+ EmptyString = s.
Proof.
  induction s as [|c s IH]; [done|].
  change (String c (s +:+ EmptyString) = String c s). by rewrite IH.
Qed.

(** C5. Plan and suite names are resolved by a scan of the list the server
    sent, in its order: the call returns the [id] of the first item whose
    [name] is exactly the requested string, character for character, and it
    returns an id in no other case; when no item has that name it raises a
    [ValueError] whose message carries the name. *)
Theorem name_resolution_first_match self plan_id name st resp rest items :
  script st = resp :: rest → served resp = Some items →
  (∀ pre item post i,
     items = pre ++ item :: post →
     (∀ x, x ∈ pre → ∃ n, getitem x "name" = inr n ∧ n ≠ JStr name) →
     getitem item "name" = inr (JStr name) → getitem item "id" = inr i →
     (get_test_plan_id self name st).1 = inr i ∧
     (get_test_suite_id self plan_id name st).1 = inr i) ∧
  (∀ i,
     (get_test_plan_id self name st).1 = inr i ∨
     (get_test_suite_id self plan_id name st).1 = inr i →
     ∃ pre item post,
       items = pre ++ item :: post ∧
       (∀ x, x ∈ pre → ∃ n, getitem x "name" = inr n ∧ n ≠ JStr name) ∧
       getitem item "name" = inr (JStr name) ∧ getitem item "id" = inr i) ∧
  ((∀ x, x ∈ items → ∃ n, getitem x "name" = inr n ∧ n ≠ JStr name) →
   (get_test_plan_id self name st).1
   = inl (ValueError
            [Lit "Test plan '"; Fmt (JStr name); Lit "' not found"]) ∧
   (get_test_suite_id self plan_id name st).1
   = inl (ValueError
            [Lit "Test suite '"; Fmt (JStr name);
             Lit "' not found in plan "; Fmt plan_id])) ∧
  render [Lit "Test plan '"; Fmt (JStr name); Lit "' not found"]
  = Some ("Test plan '" +:+ name +:+ "' not found").
Proof.
  intros Hs Hitems.
  rewrite (get_test_plan_id_result _ _ _ _ _ _ Hs Hitems).
  rewrite (get_test_suite_id_result _ _ _ _ _ _ _ Hs Hitems).
  split_and!.
  - intros pre item post i Hsplit Hpre Hname Hid.
    by rewrite (id_by_name_first _ _ _ _ _ _ Hsplit Hpre Hname Hid).
  - intros i Hi. apply id_by_name_Some.
    destruct (id_by_name items name) as [e|[i'|]];
      destruct Hi as [[=]|[=]]; by subst.
  - intros Hall. by rewrite (id_by_name_none _ _ Hall).
  - simpl. by rewrite append_empty_r.
Qed.

(** ** The two PATCH calls *)

(** C6. Given a response to their PATCH, [post_test_results] and
    [complete_test_run] raise exactly when its status is not 200, and return
    normally when it is; what they raise is a [ValueError] whose message
    ends with the status code in decimal and the text of the response. *)
Theorem patch_raises_unless_200 self run_id payload now st resp rest :
  script st = resp :: rest →
  let posted := (post_test_results self run_id payload st).1 in
  let completed := (complete_test_run self run_id now st).1 in
  let post_msg :=
    [Lit "Unexpected Response while posting test results to ADO: ";
     Lit "status_code: "; Fmt (JInt (status_code resp));
     Lit " response_text: "; Fmt (JStr (text resp))] in
  let complete_msg :=
    [Lit "Unexpected Response while completing the test run in ADO: ";
     Lit "status_code: "; Fmt (JInt (status_code resp));
     Lit " response_text: "; Fmt (JStr (text resp))] in
  (status_code resp = 200%Z → posted = inr () ∧ completed = inr ()) ∧
  (status_code resp ≠ 200%Z →
     posted = inl (ValueError post_msg) ∧
     completed = inl (ValueError complete_msg)) ∧
  ((∃ e, posted = inl e) ↔ status_code resp ≠ 200%Z) ∧
  ((∃ e, completed = inl e) ↔ status_code resp ≠ 200%Z) ∧
  render post_msg
  = Some ("Unexpected Response while posting test results to ADO: "
          +:+ "status_code: " +:+ pretty (status_code resp)
          +:+ " response_text: " +:+ text resp) ∧
  render complete_msg
  = Some ("Unexpected Response while completing the test run in ADO: "
          +:+ "status_code: " +:+ pretty (status_code resp)
          +:+ " response_text: " +:+ text resp).
Proof.
  intros Hs. cbn zeta.
  rewrite post_test_results_run, complete_test_run_run, Hs. simpl.
  rewrite append_empty_r. unfold unexpected.
  destruct (decide (status_code resp = 200%Z)) as [Heq|Hne].
  - rewrite bool_decide_false by (by intros ?).
    split_and!; try done; split; try done; by intros [e [=]].
  - rewrite bool_decide_true by done.
    split_and!; try done; split; eauto.
Qed.

(** ** The pipeline *)

Lemma stateless_lift {A} (r : res A) : stateless (lift r).
Proof. done. Qed.

Lemma stateless_ret {A} (x : A) : stateless (mret x).
Proof. done. Qed.

Lemma stateless_raise {A} (e : exn) : stateless (raise e : M A).
Proof. done. Qed.

Lemma stateless_bind {A B} (m : M A) (f : A → M B) :
  stateless m → (∀ a, stateless (f a)) → stateless (m ≫= f).
Proof.
  intros Hm Hf st. rewrite bind_run. specialize (Hm st).
  destruct (m st) as [[e|a] st1]; simpl in *; [done|].
  subst st1. apply Hf.
Qed.

Lemma stateless_raise_for_status r : stateless (raise_for_status r).
Proof. unfold raise_for_status. by destruct (bool_decide _). Qed.

Lemma stateless_response_json r : stateless (response_json r).
Proof. unfold response_json. by destruct (parsed r). Qed.

(** A request followed by reading the answer leaves the state as the
    request does. *)
Lemma send_then {A} (req : request) (k : response → M A) st :
  (∀ r, stateless (k r)) → ((send req ≫= k) st).2 = answered req st.
Proof.
  intros Hk. rewrite bind_run. unfold send, answered.
  destruct (script st) as [|r rest]; [done|]. apply Hk.
Qed.

Create HintDb stateless.

Local Hint Resolve stateless_lift stateless_ret stateless_raise
  stateless_raise_for_status stateless_response_json : stateless.

Local Ltac stateless :=
  repeat (first [ apply stateless_bind; [|intros ?]
                | progress eauto with stateless
                | case_match ]).

Lemma get_test_plan_id_state self name st :
  ∃ req, (get_test_plan_id self name st).2 = answered req st.
Proof.
  unfold get_test_plan_id. rewrite bind_run. unfold lift at 1. simpl.
  eexists. unfold session_get. apply send_then. intros r. stateless.
Qed.

Lemma get_test_suite_id_state self plan_id name st :
  ∃ req, (get_test_suite_id self plan_id name st).2 = answered req st.
Proof.
  unfold get_test_suite_id. rewrite bind_run. unfold lift at 1. simpl.
  eexists. unfold session_get. apply send_then. intros r. stateless.
Qed.

Lemma get_test_points_state self plan_id suite_id st :
  ∃ req, (get_test_points self plan_id suite_id st).2 = answered req st.
Proof.
  unfold get_test_points. rewrite bind_run. unfold lift at 1. simpl.
  eexists. unfold session_get. apply send_then. intros r. stateless.
Qed.

Lemma create_test_run_state self plan suite plan_id ids now st :
  ∃ req, (create_test_run self plan suite plan_id ids now st).2
         = answered req st.
Proof.
  unfold create_test_run. rewrite bind_run. unfold lift at 1. simpl.
  eexists. unfold session_post. apply send_then. intros r. stateless.
Qed.

Lemma record_passed_deref h l : record_passed (deref h l) = passed h l.
Proof.
  unfold record_passed, deref, passed, field.
  destruct (h !! l) as [[| | | | | |fields]|]; simpl; try done.
  by destruct (fields !! "outcome").
Qed.

Lemma forallb_Forall2 {A B} (f : A → bool) (g : B → bool) l k :
  Forall2 (λ x y, f x = g y) l k → forallb f l = forallb g k.
Proof. induction 1 as [|x y l k Hxy _ IH]; simpl; congruence. Qed.

Lemma existsb_negb {A} (f : A → bool) l :
  existsb (λ x, negb (f x)) l = negb (forallb f l).
Proof.
  induction l as [|x l IH]; simpl; [done|]. rewrite IH.
  by destruct (f x), (forallb f l).
Qed.

(** The records of the payload pass exactly when the placeholders ended up
    with records that passed. *)
Lemma merge_inv_records tr st0 pts payload st' :
  results_bound tr (heap st0) →
  merge_inv tr st0 pts payload st' →
  forallb record_passed (deref (heap st') <$> payload)
  = forallb (point_passed tr (heap st0)) pts.
Proof.
  intros Hwf Hinv. apply forallb_Forall2.
  apply Forall2_fmap_l, Forall2_same_length_lookup_2.
  { by rewrite (inv_locs _ _ _ _ _ Hinv), length_imap. }
  intros i l p Hl Hp. simpl. rewrite record_passed_deref.
  destruct (merge_inv_entry _ _ _ _ _ Hwf Hinv i l Hl)
    as (p' & pid & fields & Hp' & _ & Hcell & Hin).
  rewrite Hp in Hp'. injection Hp' as <-.
  unfold point_passed, passed.
  rewrite (field_merged _ _ _ _ _ Hcell), merged_outcome.
  destruct Hin as [[-> H0]|(-> & _ & _ & -> & _)].
  - by rewrite (field_obj _ _ _ _ H0).
  - done.
Qed.

(** X2. When [main] runs to its end, its last two requests are the PATCH of
    the merged records and the PATCH that completes the run, and the run is
    left in ["Completed"] when every record posted has outcome ["Passed"],
    in ["NeedsInvestigation"] otherwise. *)
Theorem main_completion_state org_url project token plan suite tr t1 t2
    st st' :
  results_bound tr (heap st) →
  main org_url project token plan suite tr t1 t2 st = (inr (), st') →
  ∃ earlier run_id records,
    sent st'
    = earlier
      ++ [Request PATCH (results_url (init org_url project token) run_id)
            (Some (JArr records));
          completion_request (init org_url project token) run_id
            (if forallb record_passed records
             then "Completed" else "NeedsInvestigation") t2].
Proof.
  intros Hwf H. unfold main in H. cbn zeta in H.
  set (self := init org_url project token) in *.
  apply bind_inr in H as ([] & s0 & H0 & H).
  unfold set_is_failure in H0. injection H0 as <-.
  apply bind_inr in H as (plan_id & s1 & H1 & H).
  destruct (get_test_plan_id_state self plan
              (State false (heap st) (sent st) (script st))) as [r1 E1].
  rewrite H1 in E1. simpl in E1. subst s1.
  apply bind_inr in H as (suite_id & s2 & H2 & H).
  destruct (get_test_suite_id_state self plan_id suite (answered r1
              (State false (heap st) (sent st) (script st)))) as [r2 E2].
  rewrite H2 in E2. simpl in E2. subst s2.
  apply bind_inr in H as (ids & s3 & H3 & H).
  match type of H3 with get_test_points _ _ _ ?s = _ =>
    destruct (get_test_points_state self plan_id suite_id s) as [r3 E3] end.
  rewrite H3 in E3. simpl in E3. subst s3.
  apply bind_inr in H as (run_id & s4 & H4 & H).
  match type of H4 with create_test_run _ _ _ _ _ _ ?s = _ =>
    destruct (create_test_run_state self plan suite plan_id ids t1 s)
      as [r4 E4] end.
  rewrite H4 in E4. simpl in E4. subst s4.
  apply bind_inr in H as (payload & s5 & H5 & H).
  apply process_test_results_inv in H5 as (resp & rest & pts & _ & _ & Hinv);
    [|done].
  apply bind_inr in H as ([] & s6 & H6 & H7).
  rewrite post_test_results_run in H6. injection H6 as _ <-.
  rewrite complete_test_run_run in H7. injection H7 as _ <-.
  exists (sent s5), run_id, (deref (heap s5) <$> payload). simpl.
  rewrite <- (assoc_L (++)). do 4 f_equal.
  match type of Hinv with merge_inv _ ?s0 _ _ _ =>
    rewrite (merge_inv_records tr s0 pts payload s5 Hwf Hinv) end.
  rewrite (inv_flag _ _ _ _ _ Hinv).
  simpl. rewrite existsb_negb. by destruct (forallb _ pts).
Qed.

(** ** One request for each call *)

Lemma merge_point_net tr p st :
  sent (merge_point tr p st).2 = sent st ∧
  script (merge_point tr p st).2 = script st.
Proof.
  unfold merge_point, mbind, M_bind, lift, alloc, get_heap, store,
    set_is_failure, raise, mret, M_ret.
  repeat (case_match; simplify_eq/=); done.
Qed.

Lemma merge_points_net tr pts acc st :
  sent (merge_points tr pts acc st).2 = sent st ∧
  script (merge_points tr pts acc st).2 = script st.
Proof.
  revert acc st. induction pts as [|p pts IH]; intros acc st; [done|].
  simpl. rewrite bind_run.
  destruct (merge_point_net tr p st) as [Hs Hc].
  destruct (merge_point tr p st) as [[e|l] st1]; [done|].
  simpl in Hs, Hc. rewrite <- Hs, <- Hc. apply IH.
Qed.

Lemma issues_answered {A} (m : M A) st req :
  (m st).2 = answered req st → issues m st req.
Proof. unfold issues. by intros ->. Qed.

Lemma get_test_plan_id_answered self name st :
  (get_test_plan_id self name st).2
  = answered (Request GET (plans_url self) None) st.
Proof.
  unfold get_test_plan_id. rewrite bind_run. unfold lift at 1. simpl.
  unfold session_get. rewrite send_then; [done|]. intros r. stateless.
Qed.

Lemma get_test_plan_id_issues self name st :
  issues (get_test_plan_id self name) st
    (Request GET (plans_url self) None).
Proof. apply issues_answered, get_test_plan_id_answered. Qed.

Lemma get_test_suite_id_answered self plan_id name st :
  (get_test_suite_id self plan_id name st).2
  = answered (Request GET (suites_url self plan_id) None) st.
Proof.
  unfold get_test_suite_id. rewrite bind_run. unfold lift at 1. simpl.
  unfold session_get. rewrite send_then; [done|]. intros r. stateless.
Qed.

Lemma get_test_suite_id_issues self plan_id name st :
  issues (get_test_suite_id self plan_id name) st
    (Request GET (suites_url self plan_id) None).
Proof. apply issues_answered, get_test_suite_id_answered. Qed.

Lemma get_test_points_answered self plan_id suite_id st :
  (get_test_points self plan_id suite_id st).2
  = answered (Request GET (points_url self plan_id suite_id) None) st.
Proof.
  unfold get_test_points. rewrite bind_run. unfold lift at 1. simpl.
  unfold session_get. rewrite send_then; [done|]. intros r. stateless.
Qed.

Lemma get_test_points_issues self plan_id suite_id st :
  issues (get_test_points self plan_id suite_id) st
    (Request GET (points_url self plan_id suite_id) None).
Proof. apply issues_answered, get_test_points_answered. Qed.

Lemma create_test_run_issues self plan suite plan_id ids now st :
  ∃ body,
    body !! "plan" = Some (JObj {[ "id" := plan_id ]}) ∧
    body !! "pointIds" = Some (JArr ids) ∧
    body !! "automated" = Some (JBool true) ∧
    body !! "name" = Some (JStr ("Automation Test Run - " +:+ suite)) ∧
    issues (create_test_run self plan suite plan_id ids now) st
      (Request POST (runs_url self) (Some (JObj body))).
Proof.
  unfold create_test_run. eexists. split_and!; last first.
  - apply issues_answered. cbn zeta.
    rewrite bind_run. unfold lift at 1. simpl.
    unfold session_post. rewrite send_then; [done|]. intros r. stateless.
  - done.
  - done.
  - done.
  - done.
Qed.

Lemma process_test_results_issues self run_id tr st :
  issues (process_test_results self run_id tr) st
    (Request GET (results_url self run_id) None).
Proof.
  unfold issues. rewrite process_test_results_run. cbn zeta.
  destruct (script st) as [|resp rest] eqn:Hs.
  { unfold answered. simpl. by rewrite Hs. }
  assert (script (answered (Request GET (results_url self run_id) None) st)
          = rest) as Hrest.
  { unfold answered. simpl. by rewrite Hs. }
  destruct (bool_decide _); [done|].
  destruct (parsed resp) as [j|]; [|done].
  destruct (getitem j "value") as [e|v]; [done|].
  destruct (iter v) as [e|pts]; [done|].
  destruct (merge_points_net tr pts []
              (answered (Request GET (results_url self run_id) None) st))
    as [-> ->].
  done.
Qed.

Lemma post_test_results_issues self run_id payload st :
  issues (post_test_results self run_id payload) st
    (Request PATCH (results_url self run_id)
       (Some (JArr (deref (heap st) <$> payload)))).
Proof. apply issues_answered. by rewrite post_test_results_run. Qed.

Lemma complete_test_run_issues self run_id now st :
  issues (complete_test_run self run_id now) st
    (completion_request self run_id
       (if is_failure st then "NeedsInvestigation" else "Completed") now).
Proof. apply issues_answered. by rewrite complete_test_run_run. Qed.

Lemma versioned_plans self : versioned self (Request GET (plans_url self) None).
Proof. by exists [Lit "/_apis/testplan/plans"]. Qed.

Lemma versioned_suites self plan_id :
  versioned self (Request GET (suites_url self plan_id) None).
Proof.
  by exists [Lit "/_apis/testplan/plans"; Lit "/"; Fmt plan_id; Lit "/suites"].
Qed.

Lemma versioned_points self plan_id suite_id :
  versioned self (Request GET (points_url self plan_id suite_id) None).
Proof.
  by exists [Lit "/_apis/test/Plans/"; Fmt plan_id; Lit "/Suites/";
             Fmt suite_id; Lit "/points"].
Qed.

Lemma versioned_runs self body :
  versioned self (Request POST (runs_url self) body).
Proof. by exists [Lit "/_apis/test/runs"]. Qed.

Lemma versioned_results self run_id v body :
  versioned self (Request v (results_url self run_id) body).
Proof.
  by exists [Lit "/_apis/test/runs"; Lit "/"; Fmt run_id; Lit "/results"].
Qed.

Lemma versioned_completion self run_id state now :
  versioned self (completion_request self run_id state now).
Proof. by exists [Lit "/_apis/test/runs"; Lit "/"; Fmt run_id]. Qed.

(** X4. Every method of the client that talks to the server issues exactly
    one request and takes exactly one response, whether it returns or
    raises: a GET for the two name resolutions, the points and the
    placeholder records, a POST for the new run, a PATCH for the results and
    for the completion; each goes to the project of the client and names
    the version of the API. *)
Theorem one_request_per_call self st name plan suite plan_id suite_id ids
    run_id tr payload now :
  issues (get_test_plan_id self name) st (Request GET (plans_url self) None) ∧
  issues (get_test_suite_id self plan_id name) st
    (Request GET (suites_url self plan_id) None) ∧
  issues (get_test_points self plan_id suite_id) st
    (Request GET (points_url self plan_id suite_id) None) ∧
  (∃ body,
     issues (create_test_run self plan suite plan_id ids now) st
       (Request POST (runs_url self) (Some (JObj body)))) ∧
  issues (process_test_results self run_id tr) st
    (Request GET (results_url self run_id) None) ∧
  issues (post_test_results self run_id payload) st
    (Request PATCH (results_url self run_id)
       (Some (JArr (deref (heap st) <$> payload)))) ∧
  issues (complete_test_run self run_id now) st
    (completion_request self run_id
       (if is_failure st then "NeedsInvestigation" else "Completed") now) ∧
  Forall (λ u, ∃ path,
            u = [Lit (ado_uri self)] ++ path ++ [Lit "?"; Lit API_VERSION])
    [plans_url self; suites_url self plan_id;
     points_url self plan_id suite_id; runs_url self;
     results_url self run_id; run_url self run_id].
Proof.
  split_and!.
  - apply get_test_plan_id_issues.
  - apply get_test_suite_id_issues.
  - apply get_test_points_issues.
  - destruct (create_test_run_issues self plan suite plan_id ids now st)
      as (body & _ & _ & _ & _ & H). eauto.
  - apply process_test_results_issues.
  - apply post_test_results_issues.
  - apply complete_test_run_issues.
  - repeat constructor.
    + apply (versioned_plans self).
    + apply (versioned_suites self plan_id).
    + apply (versioned_points self plan_id suite_id).
    + apply (versioned_runs self None).
    + apply (versioned_results self run_id GET None).
    + apply (versioned_completion self run_id "Completed" now).
Qed.

(** ** The order of the pipeline *)

Lemma issues_sent {A} (m : M A) st req r st' :
  issues m st req → m st = (r, st') → sent st' = sent st ++ [req].
Proof. intros [Hs _] Hm. by rewrite Hm in Hs. Qed.


(** ** Answers that are errors *)

(** X5. The calls that check their response with [raise_for_status] raise
    an [HTTPError] on any status from 400 to 599, whatever the body holds,
    with the request issued and nothing else done: no object is built or
    written and the flag stays as it was. *)
Theorem http_error_before_body self st resp rest name plan suite plan_id
    suite_id ids run_id tr now :
  script st = resp :: rest → (400 ≤ status_code resp < 600)%Z →
  get_test_plan_id self name st
  = (inl (HTTPError (status_code resp)),
     answered (Request GET (plans_url self) None) st) ∧
  get_test_suite_id self plan_id name st
  = (inl (HTTPError (status_code resp)),
     answered (Request GET (suites_url self plan_id) None) st) ∧
  get_test_points self plan_id suite_id st
  = (inl (HTTPError (status_code resp)),
     answered (Request GET (points_url self plan_id suite_id) None) st) ∧
  (create_test_run self plan suite plan_id ids now st).1
  = inl (HTTPError (status_code resp)) ∧
  heap (create_test_run self plan suite plan_id ids now st).2 = heap st ∧
  is_failure (create_test_run self plan suite plan_id ids now st).2
  = is_failure st ∧
  process_test_results self run_id tr st
  = (inl (HTTPError (status_code resp)),
     answered (Request GET (results_url self run_id) None) st).
Proof.
  intros Hs Hstatus. cbn zeta.
  assert (bool_decide (400 ≤ status_code resp < 600)%Z = true) as Hb
    by by apply bool_decide_eq_true.
  assert (∀ A (k : unit → M A) s,
            (raise_for_status resp ≫= k) s
            = (inl (HTTPError (status_code resp)), s)) as Hraise.
  { intros A k s. rewrite bind_run. unfold raise_for_status. by rewrite Hb. }
  split_and!.
  - unfold get_test_plan_id, answered.
    rewrite bind_run. unfold lift at 1. simpl.
    rewrite bind_run. unfold session_get, send. rewrite Hs.
    by rewrite Hraise.
  - unfold get_test_suite_id, answered.
    rewrite bind_run. unfold lift at 1. simpl.
    rewrite bind_run. unfold session_get, send. rewrite Hs.
    by rewrite Hraise.
  - unfold get_test_points, answered.
    rewrite bind_run. unfold lift at 1. simpl.
    rewrite bind_run. unfold session_get, send. rewrite Hs.
    by rewrite Hraise.
  - unfold create_test_run. cbn zeta.
    rewrite bind_run. unfold lift at 1. simpl.
    rewrite bind_run. unfold session_post, send. rewrite Hs.
    by rewrite Hraise.
  - unfold create_test_run. cbn zeta.
    rewrite bind_run. unfold lift at 1. simpl.
    rewrite bind_run. unfold session_post, send. rewrite Hs.
    by rewrite Hraise.
  - unfold create_test_run. cbn zeta.
    rewrite bind_run. unfold lift at 1. simpl.
    rewrite bind_run. unfold session_post, send. rewrite Hs.
    by rewrite Hraise.
  - rewrite process_test_results_run, Hs. cbn zeta. by rewrite Hb.
Qed.

(** ** The points of a suite *)

Lemma mapM_res_inr {A B} (f : A → res B) (l : list A) (k : list B) :
  mapM f l = inr k ↔ Forall2 (λ x y, f x = inr y) l k.
Proof.
  revert k. induction l as [|x l IH]; intros k; simpl.
  - split.
    + intros [= <-]. constructor.
    + by intros ->%Forall2_nil_inv_l.
  - destruct (f x) as [e|y] eqn:Hx; simpl.
    + split; [done|]. intros (y & k' & Hy & _ & _)%Forall2_cons_inv_l.
      by rewrite Hx in Hy.
    + destruct (mapM f l) as [e|k'] eqn:Hl; simpl.
      * split; [done|]. intros (y' & k' & _ & Hk' & _)%Forall2_cons_inv_l.
        by apply IH in Hk'.
      * split.
        -- intros [= <-]. constructor; [done|]. by apply IH.
        -- intros (y' & k'' & Hy' & Hk'' & ->)%Forall2_cons_inv_l.
           apply IH in Hk''. rewrite Hx in Hy'.
           injection Hy' as <-. by injection Hk'' as <-.
Qed.

Lemma get_test_points_result self plan_id suite_id st resp rest pts :
  script st = resp :: rest → served resp = Some pts →
  (get_test_points self plan_id suite_id st).1
  = mapM (λ value, getitem value "id") pts.
Proof.
  intros Hs Hpts. unfold get_test_points, served in *.
  rewrite bind_run. unfold lift at 1. simpl.
  rewrite bind_run. unfold session_get, send. rewrite Hs.
  rewrite bind_run. unfold raise_for_status.
  destruct (bool_decide _); [done|]. cbn [mret M_ret].
  rewrite bind_run. unfold response_json.
  destruct (parsed resp) as [j|]; [|done]. cbn [mret M_ret].
  rewrite bind_run. unfold lift at 1.
  destruct (getitem j "value") as [e|v]; [done|].
  rewrite bind_run. unfold lift at 1.
  destruct (iter v) as [e|pts']; [done|]. by injection Hpts as ->.
Qed.

(** X6. [get_test_points] returns the [id]s of the points the server lists,
    one for each point and in the order of the list, and it returns only
    those: when a point has no [id] it returns nothing. *)
Theorem get_test_points_ids self plan_id suite_id st resp rest pts :
  script st = resp :: rest → served resp = Some pts →
  (∀ ids,
     (get_test_points self plan_id suite_id st).1 = inr ids ↔
     Forall2 (λ p i, getitem p "id" = inr i) pts ids) ∧
  (∀ ids,
     (get_test_points self plan_id suite_id st).1 = inr ids →
     length ids = length pts) ∧
  (∀ p, p ∈ pts → (∀ i, getitem p "id" ≠ inr i) →
     ∃ e, (get_test_points self plan_id suite_id st).1 = inl e).
Proof.
  intros Hs Hpts.
  rewrite (get_test_points_result _ _ _ _ _ _ _ Hs Hpts).
  split_and!.
  - intros ids. apply mapM_res_inr.
  - intros ids Hids%mapM_res_inr. symmetry. by eapply Forall2_length.
  - intros p Hp Hnone.
    destruct (mapM _ pts) as [e|ids] eqn:Hm; [by eexists|].
    apply mapM_res_inr in Hm.
    apply list_elem_of_lookup in Hp as [i Hi].
    destruct (Forall2_lookup_l _ _ _ _ _ Hm Hi) as (y & _ & Hy).
    by destruct (Hnone y).
Qed.

(** ** More on the merge *)

(** X8. When [process_test_results] returns, the flag is set exactly when
    it was set before the call or some record of the payload has an outcome
    other than ["Passed"]. *)
Theorem process_test_results_flag_exact self run_id tr st payload st' :
  results_bound tr (heap st) →
  process_test_results self run_id tr st = (inr payload, st') →
  is_failure st'
  = is_failure st
    || negb (forallb record_passed (deref (heap st') <$> payload)).
Proof.
  intros Hwf (resp & rest & pts & _ & _ & Hinv)%process_test_results_inv;
    [|done].
  rewrite (merge_inv_records tr (answered _ st) _ _ _ Hwf Hinv).
  rewrite (inv_flag _ _ _ _ _ Hinv). simpl. by rewrite existsb_negb.
Qed.

(** X9. The payload has one entry for each placeholder record, and the
    dict of a placeholder that finds no result is an object of its own: it
    was not there before the call and no other entry of the payload is that
    object. *)
Theorem unmatched_points_get_own_dicts self run_id tr st resp rest pts
    payload st' :
  results_bound tr (heap st) →
  script st = resp :: rest → served resp = Some pts →
  process_test_results self run_id tr st = (inr payload, st') →
  length payload = length pts ∧
  ∀ i p l,
    pts !! i = Some p → hit tr p = None → payload !! i = Some l →
    heap st !! l = None ∧ ∀ j, j ≠ i → payload !! j ≠ Some l.
Proof.
  intros Hwf Hs Hpts H.
  rewrite (process_test_results_served _ _ _ _ _ _ _ Hs Hpts) in H.
  apply merge_points_inr in H as Hinv; [|done].
  pose proof (inv_locs _ _ _ _ _ Hinv) as Hlocs. simpl in Hlocs.
  split; [by rewrite Hlocs, length_imap|].
  intros i p l Hp Hhit Hl.
  rewrite Hlocs, list_lookup_imap, Hp in Hl. simpl in Hl.
  unfold target in Hl. rewrite Hhit in Hl. injection Hl as <-.
  split; [apply lookup_ge_None; lia|].
  intros j Hj Hlj. rewrite Hlocs in Hlj.
  apply list_lookup_imap_Some in Hlj as (q & Hq & Hlj).
  unfold target in Hlj. destruct (hit tr q) as [l'|] eqn:Hhq; simpl in Hlj.
  - pose proof (hit_bound _ _ _ _ Hwf Hhq). lia.
  - lia.
Qed.

(** X18. [process_test_results] writes only the dicts that its placeholders
    find: every object that was there before the call and that no
    placeholder finds is, after a call that returns, as it was, whether
    [test_results] refers to it or not. *)
Theorem objects_not_found_are_left self run_id tr st resp rest pts payload
    st' l :
  results_bound tr (heap st) →
  script st = resp :: rest → served resp = Some pts →
  process_test_results self run_id tr st = (inr payload, st') →
  l < length (heap st) → (∀ p, p ∈ pts → hit tr p ≠ Some l) →
  heap st' !! l = heap st !! l ∧ l ∉ payload.
Proof.
  intros Hwf Hs Hpts H Hl Hnohit.
  rewrite (process_test_results_served _ _ _ _ _ _ _ Hs Hpts) in H.
  apply merge_points_inr in H as Hinv; [|done].
  split.
  - pose proof (inv_old _ _ _ _ _ Hinv l Hl) as Hold.
    by rewrite filter_none in Hold.
  - intros [i Hi]%list_elem_of_lookup.
    destruct (merge_inv_entry tr (answered _ st) _ _ _ Hwf Hinv i l Hi)
      as (p & pid & fields & Hp & _ & _ & [[Hhit _]|(_ & Hfresh & _)]).
    + by apply (Hnohit p); [eapply list_elem_of_lookup_2|].
    + simpl in Hfresh. lia.
Qed.

(** ** The address of the project *)

Lemma rstrip_slash_slashes n : rstrip_slash (slashes n) = EmptyString.
Proof. induction n as [|n IH]; [done|]. simpl. by rewrite IH. Qed.

Lemma append_cons c (s t : string) : String c s +:+ t = String c (s +:+ t).
Proof. done. Qed.

Lemma rstrip_slash_append s n :
  rstrip_slash (s +:+ slashes n) = rstrip_slash s.
Proof.
  induction s as [|c s IH].
  - apply rstrip_slash_slashes.
  - rewrite append_cons. simpl. by rewrite IH.
Qed.

Lemma lstrip_slash_append s n :
  lstrip_slash (slashes n +:+ s) = lstrip_slash s.
Proof.
  induction n as [|n IH]; [done|].
  change (slashes (S n) +:+ s) with (String "/" (slashes n +:+ s)).
  simpl. apply IH.
Qed.

(** X11. [__init__] joins the organisation and the project by one slash
    whatever slashes the organisation ends with and the project begins
    with: adding some changes nothing, and stripping what is stripped
    strips nothing more. *)
Theorem init_ignores_slashes org_url project token n m :
  ado_uri (init (org_url +:+ slashes n) (slashes m +:+ project) token)
  = ado_uri (init org_url project token) ∧
  rstrip_slash (rstrip_slash org_url) = rstrip_slash org_url ∧
  lstrip_slash (lstrip_slash project) = lstrip_slash project.
Proof.
  split_and!.
  - simpl. by rewrite rstrip_slash_append, lstrip_slash_append.
  - induction org_url as [|c s IH]; [done|]. simpl.
    destruct (rstrip_slash s) as [|c' r] eqn:Hr.
    + destruct (Ascii.eqb c "/") eqn:Hc; [done|]. simpl. by rewrite Hc.
    + simpl. simpl in IH. by rewrite IH.
  - induction project as [|c s IH]; [done|]. simpl.
    destruct (Ascii.eqb c "/") eqn:Hc; [done|]. simpl. by rewrite Hc.
Qed.

(** ** Names that cannot be read *)

Lemma id_by_name_no_name items name pre item post :
  items = pre ++ item :: post →
  (∀ x, x ∈ pre → ∃ n, getitem x "name" = inr n ∧ n ≠ JStr name) →
  (∀ n, getitem item "name" ≠ inr n) →
  ∃ e, id_by_name items name = inl e ∧ getitem item "name" = inl e.
Proof.
  intros -> Hpre Hname. induction pre as [|x pre IH]; simpl.
  - destruct (getitem item "name") as [e|n]; [by exists e|].
    by destruct (Hname n).
  - destruct (Hpre x) as (n & -> & Hn%eq_str_false); [by left|]. simpl.
    rewrite Hn. apply IH. intros y Hy. apply Hpre. by right.
Qed.

Lemma id_by_name_no_id items name pre item post :
  items = pre ++ item :: post →
  (∀ x, x ∈ pre → ∃ n, getitem x "name" = inr n ∧ n ≠ JStr name) →
  getitem item "name" = inr (JStr name) →
  (∀ i, getitem item "id" ≠ inr i) →
  ∃ e, id_by_name items name = inl e ∧ getitem item "id" = inl e.
Proof.
  intros -> Hpre Hname Hid. induction pre as [|x pre IH]; simpl.
  - rewrite Hname. simpl. rewrite bool_decide_true by done.
    destruct (getitem item "id") as [e|i]; [by exists e|].
    by destruct (Hid i).
  - destruct (Hpre x) as (n & -> & Hn%eq_str_false); [by left|]. simpl.
    rewrite Hn. apply IH. intros y Hy. apply Hpre. by right.
Qed.

(** X13. The scan of a name resolution reads every item in turn: when an
    item before any match has no [name], or the first match has no [id],
    both resolutions raise what reading that key raises, [KeyError] for a
    dict, whatever the items after it are. *)
Theorem name_resolution_unreadable_item self plan_id name st resp rest
    pre item post :
  script st = resp :: rest → served resp = Some (pre ++ item :: post) →
  (∀ x, x ∈ pre → ∃ n, getitem x "name" = inr n ∧ n ≠ JStr name) →
  ((∀ n, getitem item "name" ≠ inr n) →
   ∃ e, getitem item "name" = inl e ∧
        (get_test_plan_id self name st).1 = inl e ∧
        (get_test_suite_id self plan_id name st).1 = inl e) ∧
  (getitem item "name" = inr (JStr name) →
   (∀ i, getitem item "id" ≠ inr i) →
   ∃ e, getitem item "id" = inl e ∧
        (get_test_plan_id self name st).1 = inl e ∧
        (get_test_suite_id self plan_id name st).1 = inl e) ∧
  (∀ fields, item = JObj fields → fields !! "name" = None →
     (get_test_plan_id self name st).1 = inl (KeyError "name")).
Proof.
  intros Hs Hitems Hpre.
  rewrite (get_test_plan_id_result _ _ _ _ _ _ Hs Hitems).
  rewrite (get_test_suite_id_result _ _ _ _ _ _ _ Hs Hitems).
  split_and!.
  - intros Hname.
    destruct (id_by_name_no_name _ name pre item post eq_refl Hpre Hname)
      as (e & -> & He). by exists e.
  - intros Hname Hid.
    destruct (id_by_name_no_id _ name pre item post eq_refl Hpre Hname Hid)
      as (e & -> & He). by exists e.
  - intros fields -> Hnone.
    destruct (id_by_name_no_name _ name pre (JObj fields) post eq_refl Hpre)
      as (e & -> & He).
    + intros n. simpl. by rewrite Hnone.
    + simpl in He. rewrite Hnone in He. by injection He as <-.
Qed.

(** ** Records that cannot be merged *)

Lemma merge_points_app tr pre post acc st :
  merge_points tr (pre ++ post) acc st
  = match merge_points tr pre acc st with
    | (inl e, s) => (inl e, s)
    | (inr acc', s) => merge_points tr post acc' s
    end.
Proof.
  revert acc st. induction pre as [|p pre IH]; intros acc st; [done|].
  simpl. rewrite !bind_run.
  destruct (merge_point tr p st) as [[e|l] st1]; [done|]. apply IH.
Qed.

(** A placeholder that finds the object at [l]: the turn up to the
    [update]. *)
Lemma merge_point_hit tr p st l :
  hit tr p = Some l → l < length (heap st) →
  merge_point tr p st
  = match heap st !! l with
    | Some (JObj fields) =>
        match getitem p "id" with
        | inl e =>
            (inl e, State (is_failure st) (heap st ++ [JObj default_dict])
                      (sent st) (script st))
        | inr pid =>
            match fields !! "outcome" with
            | None =>
                (inl (KeyError "outcome"),
                 State (is_failure st)
                   (<[l := JObj (stamped fields pid)]>
                      (heap st ++ [JObj default_dict]))
                   (sent st) (script st))
            | Some o =>
                (inr l,
                 State (is_failure st || negb (eq_str o "Passed"))
                   (<[l := JObj (merged fields pid)]>
                      (heap st ++ [JObj default_dict]))
                   (sent st) (script st))
            end
        end
    | _ =>
        (inl AttributeError,
         State (is_failure st) (heap st ++ [JObj default_dict])
           (sent st) (script st))
    end.
Proof.
  intros (k & Hk & Hl)%hit_Some Hlt.
  unfold testcase_id, mbind, res_bind in Hk.
  destruct (getitem p "testCase") as [e|tc] eqn:Htc; [done|].
  unfold merge_point.
  rewrite bind_run, Htc. unfold lift at 1.
  rewrite bind_run, Hk. unfold lift at 1.
  rewrite bind_run. unfold alloc.
  rewrite bind_run. unfold lift at 1. cbn [results_get heap].
  rewrite Hl. cbn [from_option id].
  rewrite bind_run. unfold get_heap. cbn [heap]. fold default_dict.
  unfold deref. rewrite lookup_app_l by done.
  destruct (heap st !! l) as [[| | | | | |fields]|] eqn:Hcell;
    cbn [from_option id]; try done.
  rewrite bind_run. unfold lift at 1.
  destruct (getitem p "id") as [e|pid]; [done|].
  rewrite bind_run. unfold store. cbn [heap is_failure sent script].
  rewrite bind_run. unfold lift at 1, getitem.
  rewrite !lookup_insert_ne by done.
  destruct (fields !! "outcome") as [o|] eqn:Ho; [|done].
  rewrite bind_run. unfold merged. rewrite Ho.
  destruct (eq_str o "Passed").
  - cbn [mret M_ret negb]. by rewrite orb_false_r.
  - rewrite bind_run. unfold store, set_is_failure.
    cbn [heap is_failure sent script mret M_ret negb].
    by rewrite orb_true_r, list_insert_insert_eq.
Qed.

(** X10. A placeholder that finds a result the loop cannot merge makes
    [process_test_results] raise, once the placeholders before it are
    merged: [AttributeError] when the result is no dict, which is then left
    as it was, and [KeyError] for [outcome] when it is a dict without an
    outcome, which by then has got its [id], [state] and [priority]. *)
Theorem unmergeable_result_raises self run_id tr st resp rest pre p post
    l v :
  results_bound tr (heap st) →
  script st = resp :: rest → served resp = Some (pre ++ p :: post) →
  (∀ q, q ∈ pre → point_ready tr (heap st) q) →
  hit tr p = Some l → heap st !! l = Some v →
  let run := process_test_results self run_id tr st in
  ((∀ fields, v ≠ JObj fields) →
   run.1 = inl AttributeError ∧ heap run.2 !! l = Some v) ∧
  (∀ fields pid,
     v = JObj fields → fields !! "outcome" = None →
     getitem p "id" = inr pid →
     run.1 = inl (KeyError "outcome") ∧
     heap run.2 !! l = Some (JObj (stamped fields pid))).
Proof.
  intros Hwf Hs Hpts Hpre Hhit Hv. cbn zeta.
  rewrite (process_test_results_served _ _ _ _ _ _ _ Hs Hpts).
  set (st0 := answered (Request GET (results_url self run_id) None) st).
  rewrite merge_points_app.
  destruct (merge_points_returns tr pre [] st0 Hpre) as (acc & st1 & Hrun).
  rewrite Hrun. simpl. rewrite bind_run.
  pose proof (merge_points_inr tr pre st0 acc st1 Hwf Hrun) as Hinv.
  pose proof (hit_bound _ _ _ _ Hwf Hhit) as Hlt.
  assert (length (heap st) ≤ length (heap st1)) as Hgrow.
  { rewrite (inv_length _ _ _ _ _ Hinv). simpl. lia. }
  rewrite (merge_point_hit tr p st1 l Hhit) by lia.
  split.
  - intros Hnodict.
    assert (heap st1 !! l = Some v) as Hcell.
    { pose proof (inv_old _ _ _ _ _ Hinv l Hlt) as Hold. simpl in Hold.
      destruct (last (filter _ pre)) as [q|]; [|congruence].
      destruct Hold as (fields & _ & Hf & _). rewrite Hv in Hf.
      injection Hf as ->. by destruct (Hnodict fields). }
    rewrite Hcell.
    destruct v as [| | | | | |fields]; try (by destruct (Hnodict fields));
      simpl; (split; [done|]); by apply lookup_app_l_Some.
  - intros fields pid -> Hnone Hpid.
    assert (heap st1 !! l = Some (JObj fields)) as ->.
    { pose proof (inv_old _ _ _ _ _ Hinv l Hlt) as Hold. simpl in Hold.
      destruct (last (filter _ pre)) as [q|]; [|congruence].
      destruct Hold as (fields' & pid' & Hf & _ & [o Ho] & _).
      rewrite Hv in Hf.
      injection Hf as ->. congruence. }
    rewrite Hpid, Hnone. simpl. split; [done|].
    apply list_lookup_insert_eq. rewrite length_app. lia.
Qed.

(** ** Merging twice *)

Lemma existsb_ext_elem {A} (f g : A → bool) l :
  (∀ x, x ∈ l → f x = g x) → existsb f l = existsb g l.
Proof.
  induction l as [|x l IH]; intros Hfg; [done|]. simpl.
  rewrite (Hfg x) by left. f_equal. apply IH. intros y Hy. apply Hfg. by right.
Qed.

(** X12. A second [process_test_results] on the same client, against the
    same placeholder records, changes no object that the first has left
    and not the flag, and it hands out the same dicts of [test_results]
    again; all that it adds are fallback dicts of its own. *)
Theorem second_merge_changes_nothing self run_id tr st resp rest pts payload
    st1 resp2 rest2 payload2 st2 :
  results_bound tr (heap st) →
  script st = resp :: rest → served resp = Some pts →
  process_test_results self run_id tr st = (inr payload, st1) →
  script st1 = resp2 :: rest2 → served resp2 = Some pts →
  process_test_results self run_id tr st1 = (inr payload2, st2) →
  (∀ l, l < length (heap st1) → heap st2 !! l = heap st1 !! l) ∧
  is_failure st2 = is_failure st1 ∧
  (∀ i p, pts !! i = Some p → is_Some (hit tr p) →
          payload2 !! i = payload !! i).
Proof.
  intros Hwf Hs Hpts H1 Hs2 Hpts2 H2.
  rewrite (process_test_results_served _ _ _ _ _ _ _ Hs Hpts) in H1.
  rewrite (process_test_results_served _ _ _ _ _ _ _ Hs2 Hpts2) in H2.
  apply merge_points_inr in H1 as Hinv1; [|done].
  assert (length (heap st) ≤ length (heap st1)) as Hgrow.
  { rewrite (inv_length _ _ _ _ _ Hinv1). simpl. lia. }
  assert (results_bound tr (heap st1)) as Hwf1.
  { intros k l Hl. specialize (Hwf k l Hl). lia. }
  apply merge_points_inr in H2 as Hinv2; [|done].
  assert (∀ p l, p ∈ pts → hit tr p = Some l →
            ∃ fields pid,
              heap st !! l = Some (JObj fields) ∧
              heap st1 !! l = Some (JObj (merged fields pid)) ∧
              ∀ q, last (filter (λ p, hit tr p = Some l) pts) = Some q →
                   getitem q "id" = inr pid) as Hfirst.
  { intros p l Hp Hhit.
    pose proof (inv_old _ _ _ _ _ Hinv1 l (hit_bound _ _ _ _ Hwf Hhit))
      as Hold. simpl in Hold.
    destruct (last (filter _ pts)) as [q|] eqn:Hlast.
    - destruct Hold as (fields & pid & ? & ? & _ & ?).
      exists fields, pid. split_and!; try done. by intros ? [= <-].
    - apply last_None in Hlast.
      by destruct (filter_nil_not_elem_of _ _ p Hlast Hhit). }
  split_and!.
  - intros l Hl.
    pose proof (inv_old _ _ _ _ _ Hinv2 l Hl) as Hold. simpl in Hold.
    destruct (last (filter _ pts)) as [q|] eqn:Hlast; [|done].
    destruct Hold as (fields2 & pid2 & Hcell1 & Hpid2 & _ & ->).
    pose proof (last_Some_elem_of _ _ Hlast)
      as [Hhit Hq]%list_elem_of_filter.
    destruct (Hfirst q l Hq Hhit) as (fields & pid & _ & Hcell & Hpid).
    rewrite Hcell in Hcell1. injection Hcell1 as <-.
    rewrite (Hpid q Hlast) in Hpid2. injection Hpid2 as <-.
    by rewrite merged_again.
  - rewrite (inv_flag _ _ _ _ _ Hinv2). simpl.
    rewrite (inv_flag _ _ _ _ _ Hinv1). simpl.
    rewrite (existsb_ext_elem
               (λ p, negb (point_passed tr (heap st1) p))
               (λ p, negb (point_passed tr (heap st) p))).
    { by destruct (is_failure st), (existsb _ pts). }
    intros p Hp. f_equal. unfold point_passed.
    destruct (hit tr p) as [l|] eqn:Hhit; [|done].
    destruct (Hfirst p l Hp Hhit) as (fields & pid & H0 & Hcell & _).
    unfold passed.
    by rewrite (field_merged _ _ _ _ _ Hcell), merged_outcome,
      (field_obj _ _ _ _ H0).
  - intros i p Hp [l Hhit].
    rewrite (inv_locs _ _ _ _ _ Hinv1), (inv_locs _ _ _ _ _ Hinv2).
    rewrite !list_lookup_imap, Hp. simpl. unfold target. by rewrite Hhit.
Qed.

(** ** How the steps of the pipeline fit *)

Lemma get_test_plan_id_served self name st resp rest items :
  script st = resp :: rest → served resp = Some items →
  get_test_plan_id self name st
  = (match id_by_name items name with
     | inl e => inl e
     | inr (Some i) => inr i
     | inr None => inl (plan_not_found name)
     end,
     answered (Request GET (plans_url self) None) st).
Proof.
  intros Hs Hitems. apply injective_projections; simpl.
  - by apply (get_test_plan_id_result self name st resp rest items).
  - apply get_test_plan_id_answered.
Qed.

Lemma get_test_suite_id_served self plan_id name st resp rest items :
  script st = resp :: rest → served resp = Some items →
  get_test_suite_id self plan_id name st
  = (match id_by_name items name with
     | inl e => inl e
     | inr (Some i) => inr i
     | inr None => inl (suite_not_found name plan_id)
     end,
     answered (Request GET (suites_url self plan_id) None) st).
Proof.
  intros Hs Hitems. apply injective_projections; simpl.
  - by apply (get_test_suite_id_result self plan_id name st resp rest items).
  - apply get_test_suite_id_answered.
Qed.

Lemma get_test_points_served self plan_id suite_id st resp rest pts :
  script st = resp :: rest → served resp = Some pts →
  get_test_points self plan_id suite_id st
  = (mapM (λ value, getitem value "id") pts,
     answered (Request GET (points_url self plan_id suite_id) None) st).
Proof.
  intros Hs Hpts. apply injective_projections; simpl.
  - by apply (get_test_points_result self plan_id suite_id st resp rest pts).
  - apply get_test_points_answered.
Qed.

(** X14. When no plan has the name asked for, [main] raises the
    [ValueError] of the plan resolution after that one GET; when the plan is
    found and no suite of it has the name asked for, it raises that of the
    suite resolution after the two GETs.  In neither case is a run created
    or anything else sent, and no object is touched. *)
Theorem name_not_found_aborts org_url project token plan suite tr t1 t2 st
    r1 rest plans :
  script st = r1 :: rest → served r1 = Some plans →
  let self := init org_url project token in
  let run := main org_url project token plan suite tr t1 t2 st in
  ((∀ x, x ∈ plans → ∃ n, getitem x "name" = inr n ∧ n ≠ JStr plan) →
   run = (inl (ValueError
                 [Lit "Test plan '"; Fmt (JStr plan); Lit "' not found"]),
          State false (heap st)
            (sent st ++ [Request GET (plans_url self) None]) rest)) ∧
  (∀ plan_id r2 rest' suites,
     id_by_name plans plan = inr (Some plan_id) →
     rest = r2 :: rest' → served r2 = Some suites →
     (∀ x, x ∈ suites → ∃ n, getitem x "name" = inr n ∧ n ≠ JStr suite) →
     run = (inl (ValueError
                   [Lit "Test suite '"; Fmt (JStr suite);
                    Lit "' not found in plan "; Fmt plan_id]),
            State false (heap st)
              (sent st ++ [Request GET (plans_url self) None;
                           Request GET (suites_url self plan_id) None])
              rest')).
Proof.
  intros Hs Hplans. cbn zeta. unfold main. cbn zeta.
  set (self := init org_url project token).
  split.
  - intros Hnone.
    rewrite bind_run. unfold set_is_failure at 1. rewrite bind_run.
    rewrite (get_test_plan_id_served self plan
               (State false (heap st) (sent st) (script st)) r1 rest plans
               Hs Hplans).
    rewrite (id_by_name_none _ _ Hnone).
    unfold answered. simpl. by rewrite Hs.
  - intros plan_id r2 rest' suites Hfound -> Hsuites Hnone.
    rewrite bind_run. unfold set_is_failure at 1. rewrite bind_run.
    rewrite (get_test_plan_id_served self plan
               (State false (heap st) (sent st) (script st)) r1 (r2 :: rest')
               plans Hs Hplans).
    rewrite Hfound. rewrite bind_run.
    rewrite (get_test_suite_id_served self plan_id suite _ r2 rest' suites);
      [|unfold answered; simpl; by rewrite Hs|done].
    rewrite (id_by_name_none _ _ Hnone).
    unfold answered. simpl. by rewrite Hs, <- (assoc_L (++)).
Qed.

(** X7. Once the plan and the suite are resolved and the points of the
    suite are read, [main] asks for the suites of the plan it has resolved
    and for the points of that plan and suite, and the run it creates is for
    that plan and for exactly the points read, in their order; at most
    three requests follow. *)
Theorem main_creates_run_for_points_read org_url project token plan suite tr
    t1 t2 st r1 r2 r3 rest plans suites pts plan_id suite_id ids :
  script st = r1 :: r2 :: r3 :: rest →
  served r1 = Some plans → id_by_name plans plan = inr (Some plan_id) →
  served r2 = Some suites → id_by_name suites suite = inr (Some suite_id) →
  served r3 = Some pts → Forall2 (λ p i, getitem p "id" = inr i) pts ids →
  let self := init org_url project token in
  ∃ body later,
    sent (main org_url project token plan suite tr t1 t2 st).2
    = sent st
      ++ [Request GET (plans_url self) None;
          Request GET (suites_url self plan_id) None;
          Request GET (points_url self plan_id suite_id) None;
          Request POST (runs_url self) (Some (JObj body))]
      ++ later ∧
    body !! "plan" = Some (JObj {[ "id" := plan_id ]}) ∧
    body !! "pointIds" = Some (JArr ids) ∧
    body !! "automated" = Some (JBool true) ∧
    body !! "name" = Some (JStr ("Automation Test Run - " +:+ suite)) ∧
    length later ≤ 3.
Proof.
  intros Hs Hplans Hplan Hsuites Hsuite Hpts Hids. cbn zeta.
  destruct (main org_url project token plan suite tr t1 t2 st)
    as [r s'] eqn:H.
  unfold main in H. cbn zeta in H. simpl.
  set (self := init org_url project token) in *.
  rewrite bind_run in H. unfold set_is_failure at 1 in H.
  set (s0 := State false (heap st) (sent st) (script st)) in *.
  rewrite bind_run in H.
  rewrite (get_test_plan_id_served self plan s0 r1 (r2 :: r3 :: rest) plans
             Hs Hplans), Hplan in H.
  set (s1 := answered (Request GET (plans_url self) None) s0) in *.
  rewrite bind_run in H.
  rewrite (get_test_suite_id_served self plan_id suite s1 r2 (r3 :: rest)
             suites), Hsuite in H;
    [|unfold s1, answered; simpl; by rewrite Hs|done].
  set (s2 := answered (Request GET (suites_url self plan_id) None) s1) in *.
  rewrite bind_run in H.
  rewrite (get_test_points_served self plan_id suite_id s2 r3 rest pts) in H;
    [|unfold s2, s1, answered; simpl; by rewrite Hs|done].
  apply mapM_res_inr in Hids. rewrite Hids in H.
  set (s3 := answered (Request GET (points_url self plan_id suite_id) None)
               s2) in *.
  assert (sent s3
          = sent st ++ [Request GET (plans_url self) None;
                        Request GET (suites_url self plan_id) None;
                        Request GET (points_url self plan_id suite_id) None])
    as H3.
  { unfold s3, s2, s1, s0, answered. simpl. by rewrite <- !(assoc_L (++)). }
  rewrite bind_run in H.
  destruct (create_test_run_issues self plan suite plan_id ids t1 s3)
    as (body & Bplan & Bids & Bauto & Bname & I4).
  exists body.
  destruct (create_test_run self plan suite plan_id ids t1 s3)
    as [[e|run_id] s4] eqn:E4;
    pose proof (issues_sent _ _ _ _ _ I4 E4) as H4.
  { injection H as <- <-. exists []. rewrite H4, H3, <- !(assoc_L (++)).
    split_and!; try done. simpl. lia. }
  rewrite bind_run in H.
  destruct (process_test_results self run_id tr s4)
    as [[e|payload] s5] eqn:E5;
    pose proof (issues_sent _ _ _ _ _
                  (process_test_results_issues self run_id tr s4) E5) as H5.
  { injection H as <- <-. eexists [_].
    rewrite H5, H4, H3, <- !(assoc_L (++)).
    split_and!; try done. simpl. lia. }
  rewrite bind_run in H.
  destruct (post_test_results self run_id payload s5)
    as [[e|[]] s6] eqn:E6;
    pose proof (issues_sent _ _ _ _ _
                  (post_test_results_issues self run_id payload s5) E6) as H6.
  { injection H as <- <-. eexists [_; _].
    rewrite H6, H5, H4, H3, <- !(assoc_L (++)).
    split_and!; try done. simpl. lia. }
  pose proof (issues_sent _ _ _ _ _
                (complete_test_run_issues self run_id t2 s6) H) as H7.
  eexists [_; _; _].
  rewrite H7, H6, H5, H4, H3, <- !(assoc_L (++)).
  split_and!; try done.
Qed.

(** ** Test-case ids that are no strings *)

(** X15. The keys of [test_results] are strings, and only a string finds
    one: a placeholder whose test-case id is a number, a boolean or [null]
    finds no result whatever the keys are, so that in a payload returned it
    has a fallback dict with outcome ["NotExecuted"] and the flag is set. *)
Theorem non_string_test_case_id_never_matches self run_id tr st resp rest pts
    payload st' i p key :
  results_bound tr (heap st) →
  script st = resp :: rest → served resp = Some pts →
  process_test_results self run_id tr st = (inr payload, st') →
  pts !! i = Some p → testcase_id p = inr key → (∀ k, key ≠ JStr k) →
  ∃ l,
    payload !! i = Some l ∧ heap st !! l = None ∧
    field (heap st') l "outcome" = Some (JStr "NotExecuted") ∧
    is_failure st' = true.
Proof.
  intros Hwf Hs Hpts H Hp Hkey Hnostr.
  rewrite (process_test_results_served _ _ _ _ _ _ _ Hs Hpts) in H.
  apply merge_points_inr in H as Hinv; [|done].
  assert (hit tr p = None) as Hhit.
  { unfold hit. rewrite Hkey. destruct key; try done. by destruct (Hnostr s). }
  pose proof (inv_new _ _ _ _ _ Hinv i p Hp) as Hnew. rewrite Hhit in Hnew.
  destruct Hnew as (pid & Hpid & Hcell). simpl in Hcell.
  exists (length (heap st) + i). split_and!.
  - rewrite (inv_locs _ _ _ _ _ Hinv), list_lookup_imap, Hp. simpl.
    unfold target. by rewrite Hhit.
  - apply lookup_ge_None. lia.
  - by rewrite (field_merged _ _ _ _ _ Hcell), merged_outcome.
  - apply (served_flag _ _ _ _ _ p Hinv); [by eapply list_elem_of_lookup_2|].
    unfold point_passed. by rewrite Hhit.
Qed.

(** ** Placeholders that share a result, posted *)

(** X16. When two placeholders share a test-case id that is a key of
    [test_results], [post_test_results] sends the one record twice: the
    body of its PATCH holds the same record at both positions. *)
Theorem shared_dict_is_posted_twice self run_id tr st resp rest pts payload
    st' i j p q k l :
  results_bound tr (heap st) →
  script st = resp :: rest → served resp = Some pts →
  process_test_results self run_id tr st = (inr payload, st') →
  pts !! i = Some p → pts !! j = Some q →
  testcase_id p = inr (JStr k) → testcase_id q = inr (JStr k) →
  tr !! k = Some l →
  ∃ posted record,
    sent (post_test_results self run_id payload st').2
    = sent st'
      ++ [Request PATCH (results_url self run_id) (Some (JArr posted))] ∧
    length posted = length pts ∧
    posted !! i = Some record ∧ posted !! j = Some record ∧
    ∃ fields, record = JObj fields ∧ heap st' !! l = Some record.
Proof.
  intros Hwf Hs Hpts H Hp Hq Hkp Hkq Hl.
  rewrite (process_test_results_served _ _ _ _ _ _ _ Hs Hpts) in H.
  apply merge_points_inr in H as Hinv; [|done].
  assert (hit tr p = Some l) as Hhp by by rewrite (hit_key _ _ _ Hkp).
  assert (hit tr q = Some l) as Hhq by by rewrite (hit_key _ _ _ Hkq).
  destruct (merge_inv_hit tr (answered _ st) _ _ _ _ _ _ Hwf Hinv Hp Hhp)
    as (Hpi & fields & _ & _ & pid & Hcell & _).
  destruct (merge_inv_hit tr (answered _ st) _ _ _ _ _ _ Hwf Hinv Hq Hhq)
    as (Hpj & _).
  exists (deref (heap st') <$> payload), (JObj (merged fields pid)).
  split_and!.
  - by rewrite post_test_results_run.
  - by rewrite length_fmap, (inv_locs _ _ _ _ _ Hinv), length_imap.
  - rewrite list_lookup_fmap, Hpi. simpl. unfold deref. by rewrite Hcell.
  - rewrite list_lookup_fmap, Hpj. simpl. unfold deref. by rewrite Hcell.
  - by exists (merged fields pid).
Qed.

(** ** A [value] that is no list *)

(** X17. The loop of [process_test_results] runs over whatever the response
    holds under [value]: over an empty dict or an empty string it does not
    run at all and the call returns an empty payload; over any other dict
    or string the call raises [TypeError] at the first key or character, as
    it does for a number, a boolean or [null]; in all these cases nothing
    but the request is done. *)
Theorem value_that_is_no_list self run_id tr st resp rest j v :
  script st = resp :: rest →
  ¬ (400 ≤ status_code resp < 600)%Z →
  parsed resp = Some j → getitem j "value" = inr v →
  (∀ items, v ≠ JArr items) →
  let st' := answered (Request GET (results_url self run_id) None) st in
  (v = JObj ∅ ∨ v = JStr EmptyString →
   process_test_results self run_id tr st = (inr [], st')) ∧
  (v ≠ JObj ∅ → v ≠ JStr EmptyString →
   process_test_results self run_id tr st = (inl TypeError, st')).
Proof.
  intros Hs Hstatus Hj Hv Hnolist. cbn zeta.
  rewrite process_test_results_run, Hs. cbn zeta.
  rewrite bool_decide_false by done. rewrite Hj, Hv.
  split.
  - intros [->| ->]; simpl; [|done]. by rewrite map_to_list_empty.
  - intros Hnodict Hnostr.
    destruct v as [| | | |s|items|fields]; simpl; try done.
    + by destruct s.
    + by destruct (Hnolist items).
    + destruct (map_to_list fields) as [|[k x] kvs] eqn:Hkvs; [|done].
      by apply map_to_list_empty_iff in Hkvs as ->.
Qed.

(** ** The scenarios, run *)

Import Scenario.

Lemma results_bound_singleton k l h :
  l < length h → results_bound {[ k := l ]} h.
Proof. intros Hl k' l' [_ <-]%lookup_singleton_Some. done. Qed.

Lemma results_bound_empty h : results_bound ∅ h.
Proof. intros k l. by rewrite lookup_empty. Qed.

(** The first end-to-end scenario: one result, passed, for the one point. *)
Example main_passed :
  let st := start [passed_record]
              [plans; suites; listing [named 55 "p"]; created;
               listing [point 55 "123"]; ok JNull; ok JNull] in
  let run := main "https://dev.azure.com/org/" "/proj" "token" "B" "S"
               {[ "123" := 0 ]} "2026-01-01T00:00:00Z" "2026-01-01T00:00:01Z"
               st in
  run.1 = inr () ∧
  drop 5 (sent run.2)
  = [Request PATCH (results_url ado_client (JInt 9))
       (Some (JArr [obj [("id", JInt 55); ("outcome", JStr "Passed");
                         ("state", JStr "Completed"); ("priority", JInt 2)]]));
     completion_request ado_client (JInt 9) "Completed"
       "2026-01-01T00:00:01Z"].
Proof. vm_compute. done. Qed.

(** The second: a point no result is for. *)
Example main_unmatched :
  let st := start []
              [plans; suites; listing [named 77 "p"]; created;
               listing [point 77 "999"]; ok JNull; ok JNull] in
  let run := main "https://dev.azure.com/org/" "/proj" "token" "B" "S"
               ∅ "2026-01-01T00:00:00Z" "2026-01-01T00:00:01Z" st in
  run.1 = inr () ∧
  drop 5 (sent run.2)
  = [Request PATCH (results_url ado_client (JInt 9))
       (Some (JArr [obj [("id", JInt 77); ("outcome", JStr "NotExecuted");
                         ("state", JStr "Completed"); ("priority", JInt 2);
                         ("failureType", JStr "New Issue")]]));
     completion_request ado_client (JInt 9) "NeedsInvestigation"
       "2026-01-01T00:00:01Z"].
Proof. vm_compute. done. Qed.

Lemma results_bound_mixed : results_bound results (heap mixed).
Proof.
  intros k l Hl. unfold results in Hl.
  apply lookup_insert_Some in Hl as [[_ <-]|[_ [_ <-]%lookup_singleton_Some]];
    simpl; lia.
Qed.

Lemma process_mixed :
  process_test_results ado_client (JInt 9) results mixed
  = (inr [0; 3; 0], merged_mixed).
Proof. vm_compute. reflexivity. Qed.

(** A failed record in the payload: the flag is set, the run needs
    investigation. *)
Lemma failure_flag_decides_completion_witness :
  is_failure merged_mixed = true ∧
  sent (complete_test_run ado_client (JInt 9) "now"
          (post_test_results ado_client (JInt 9) [0; 3; 0] merged_mixed).2).2
  = sent (post_test_results ado_client (JInt 9) [0; 3; 0] merged_mixed).2
    ++ [completion_request ado_client (JInt 9) "NeedsInvestigation" "now"].
Proof.
  destruct (failure_flag_decides_completion ado_client (JInt 9) results mixed
              [0; 3; 0] merged_mixed "now" results_bound_mixed process_mixed)
    as [Hset _].
  apply Hset. exists 0, (JStr "Failed"). split_and!.
  - by left.
  - vm_compute. reflexivity.
  - discriminate.
Defined.

(** The dict of the failed result keeps its priority 1; the fallback dict
    gets 2. *)
Lemma process_test_results_state_priority_witness :
  (field (heap merged_mixed) 0 "state" = Some (JStr "Completed") ∧
   field (heap merged_mixed) 0 "priority" = Some (JInt 1)) ∧
  (field (heap merged_mixed) 3 "state" = Some (JStr "Completed") ∧
   field (heap merged_mixed) 3 "priority" = Some (JInt 2)).
Proof.
  pose proof (process_test_results_state_priority ado_client (JInt 9) results
                mixed [0; 3; 0] merged_mixed results_bound_mixed process_mixed)
    as Hall.
  split.
  - apply (Hall 0). by left.
  - apply (Hall 3). right. by left.
Defined.

(** The dict of the failed result keeps its failure type; the fallback dict
    gets ["New Issue"]. *)
Lemma process_test_results_failureType_witness :
  field (heap merged_mixed) 0 "failureType" = Some (JStr "Known Issue") ∧
  field (heap merged_mixed) 3 "failureType" = Some (JStr "New Issue").
Proof.
  pose proof (process_test_results_failureType ado_client (JInt 9) results
                mixed [0; 3; 0] merged_mixed results_bound_mixed process_mixed)
    as Hall.
  split.
  - destruct (Hall 0) as (o & Ho & Hft); [by left|].
    vm_compute in Ho. injection Ho as <-. exact Hft.
  - destruct (Hall 3) as (o & Ho & Hft); [right; by left|].
    vm_compute in Ho. injection Ho as <-. exact Hft.
Defined.

(** C4 as it is stated fails: every result of the mapping passed, and yet
    the placeholder that no result is for sets the flag and leaves the run
    in ["NeedsInvestigation"]. *)
Lemma passed_results_unmatched_point_flagged :
  let tr : gmap string loc := {[ "123" := 0 ]} in
  let run := process_test_results ado_client (JInt 9) tr passed_and_more in
  (∀ k l, tr !! k = Some l → passed (heap passed_and_more) l = true) ∧
  is_failure passed_and_more = false ∧
  run.1 = inr [0; 2] ∧
  is_failure run.2 = true ∧
  last (sent (complete_test_run ado_client (JInt 9) "now"
                (post_test_results ado_client (JInt 9) [0; 2] run.2).2).2)
  = Some (completion_request ado_client (JInt 9) "NeedsInvestigation" "now").
Proof.
  cbn zeta. split_and!.
  - by intros k l [_ <-]%lookup_singleton_Some.
  - done.
  - vm_compute. reflexivity.
  - vm_compute. reflexivity.
  - vm_compute. reflexivity.
Qed.

Lemma passed_results_leave_flag_witness :
  let st' :=
    (process_test_results ado_client (JInt 9) {[ "123" := 0 ]} all_passed).2 in
  is_failure st' = false ∧
  ∀ payload,
    let st2 := (post_test_results ado_client (JInt 9) payload st').2 in
    sent (complete_test_run ado_client (JInt 9) "now" st2).2
    = sent st2 ++ [completion_request ado_client (JInt 9) "Completed" "now"].
Proof.
  destruct (passed_results_leave_flag ado_client (JInt 9) {[ "123" := 0 ]}
              all_passed (listing [point 55 "123"]) [ok JNull; ok JNull]
              [point 55 "123"] "now") as [Hsame Hdone].
  - reflexivity.
  - vm_compute. reflexivity.
  - intros p ->%list_elem_of_singleton. exists 0. split; vm_compute; reflexivity.
  - split; [exact Hsame|]. by apply Hdone.
Defined.

Lemma unmatched_result_dropped_witness :
  process_test_results ado_client (JInt 9) (delete "456" results) mixed
  = process_test_results ado_client (JInt 9) results mixed ∧
  (1 ∉ [0; 3; 0]) ∧ heap merged_mixed !! 1 = heap mixed !! 1.
Proof.
  destruct (unmatched_result_dropped ado_client (JInt 9) results mixed "456")
    as [Hsame Hleft].
  - intros resp rest pts p [= <- <-] [= <-] Hp.
    repeat (apply elem_of_cons in Hp as [->|Hp]; [by vm_compute|]).
    by apply elem_of_nil in Hp.
  - split; [exact Hsame|].
    apply (Hleft [0; 3; 0] merged_mixed 1 results_bound_mixed process_mixed).
    + reflexivity.
    + intros k' Hk'. unfold results in Hk'.
      apply lookup_insert_Some in Hk'
        as [[_ [=]]|[_ [<- _]%lookup_singleton_Some]]. done.
Defined.

(** Over the plans A and B: B resolves to 2, and neither C nor b is found. *)
Lemma name_resolution_first_match_witness :
  let st := start [] [plans] in
  (get_test_plan_id ado_client "B" st).1 = inr (JInt 2) ∧
  (get_test_suite_id ado_client (JInt 1) "B" st).1 = inr (JInt 2) ∧
  (get_test_plan_id ado_client "C" st).1
  = inl (ValueError [Lit "Test plan '"; Fmt (JStr "C"); Lit "' not found"]) ∧
  (get_test_plan_id ado_client "b" st).1
  = inl (ValueError [Lit "Test plan '"; Fmt (JStr "b"); Lit "' not found"]).
Proof.
  cbn zeta.
  assert (∀ name, name ≠ "A" → name ≠ "B" →
            ∀ x, x ∈ [named 1 "A"; named 2 "B"] →
              ∃ n, getitem x "name" = inr n ∧ n ≠ JStr name) as Hnone.
  { intros name HA HB x Hx.
    apply elem_of_cons in Hx as [->|Hx];
      [|apply list_elem_of_singleton in Hx as ->].
    - exists (JStr "A"). split; [reflexivity|congruence].
    - exists (JStr "B"). split; [reflexivity|congruence]. }
  destruct (name_resolution_first_match ado_client (JInt 1) "B"
              (start [] [plans]) plans [] [named 1 "A"; named 2 "B"]
              eq_refl eq_refl) as (HB & _).
  destruct (name_resolution_first_match ado_client (JInt 1) "C"
              (start [] [plans]) plans [] [named 1 "A"; named 2 "B"]
              eq_refl eq_refl) as (_ & _ & HC & _).
  destruct (name_resolution_first_match ado_client (JInt 1) "b"
              (start [] [plans]) plans [] [named 1 "A"; named 2 "B"]
              eq_refl eq_refl) as (_ & _ & Hb & _).
  destruct (HB [named 1 "A"] (named 2 "B") [] (JInt 2)) as [HB1 HB2].
  - reflexivity.
  - intros x ->%list_elem_of_singleton.
    exists (JStr "A"). split; [reflexivity|discriminate].
  - reflexivity.
  - reflexivity.
  - split_and!; [exact HB1|exact HB2|..].
    + apply HC, Hnone; discriminate.
    + apply Hb, Hnone; discriminate.
Defined.

(** A PATCH answered with status 500 and body "boom". *)
Lemma patch_raises_unless_200_witness :
  let st := start [] [Response 500 "boom" None] in
  (∃ e, (post_test_results ado_client (JInt 9) [] st).1 = inl e) ∧
  (∃ e, (complete_test_run ado_client (JInt 9) "now" st).1 = inl e) ∧
  render
    [Lit "Unexpected Response while posting test results to ADO: ";
     Lit "status_code: "; Fmt (JInt 500); Lit " response_text: ";
     Fmt (JStr "boom")]
  = Some "Unexpected Response while posting test results to ADO: status_code: 500 response_text: boom".
Proof.
  cbn zeta.
  destruct (patch_raises_unless_200 ado_client (JInt 9) [] "now"
              (start [] [Response 500 "boom" None]) (Response 500 "boom" None)
              [] eq_refl) as (_ & _ & Hpost & Hcomplete & Hmsg & _).
  split_and!.
  - apply Hpost. simpl. lia.
  - apply Hcomplete. simpl. lia.
  - exact Hmsg.
Defined.

(** The placeholder 77, for test case 999, of which there is no result. *)
Lemma unmatched_point_not_executed_witness :
  ∃ pid l,
    getitem (point 77 "999") "id" = inr pid ∧
    [0; 3; 0] !! 1 = Some l ∧ heap mixed !! l = None ∧
    heap merged_mixed !! l
    = Some (JObj (<["failureType" := JStr "New Issue"]>
                  (<["priority" := JInt 2]>
                  (<["state" := JStr "Completed"]>
                  (<["id" := pid]> {[ "outcome" := JStr "NotExecuted" ]}))))) ∧
    is_failure merged_mixed = true ∧
    let st2 :=
      (post_test_results ado_client (JInt 9) [0; 3; 0] merged_mixed).2 in
    sent (complete_test_run ado_client (JInt 9) "now" st2).2
    = sent st2
      ++ [completion_request ado_client (JInt 9) "NeedsInvestigation" "now"].
Proof.
  apply (unmatched_point_not_executed ado_client (JInt 9) results mixed
           (listing placeholders) [ok JNull] placeholders [0; 3; 0]
           merged_mixed 1 (point 77 "999") "now").
  - exact results_bound_mixed.
  - reflexivity.
  - vm_compute. reflexivity.
  - exact process_mixed.
  - reflexivity.
  - vm_compute. reflexivity.
Defined.

(** The placeholder 55 works on the dict of the result of test case 123. *)
Lemma process_test_results_in_place_witness :
  [0; 3; 0] !! 0 = Some 0 ∧
  ∃ before after,
    heap mixed !! 0 = Some (JObj before) ∧
    heap merged_mixed !! 0 = Some (JObj after) ∧
    is_Some (after !! "id") ∧
    after !! "state" = Some (JStr "Completed") ∧
    after !! "priority" = Some (default (JInt 2) (before !! "priority")) ∧
    (passed (heap mixed) 0 = false →
       after !! "failureType"
       = Some (default (JStr "New Issue") (before !! "failureType"))) ∧
    (passed (heap mixed) 0 = true →
       after !! "failureType" = before !! "failureType") ∧
    (∀ key, key ≠ "id" → key ≠ "state" → key ≠ "priority" →
            key ≠ "failureType" → after !! key = before !! key).
Proof.
  apply (process_test_results_in_place ado_client (JInt 9) results mixed
           (listing placeholders) [ok JNull] placeholders [0; 3; 0]
           merged_mixed 0 (point 55 "123") "123" 0).
  - exact results_bound_mixed.
  - reflexivity.
  - vm_compute. reflexivity.
  - exact process_mixed.
  - reflexivity.
  - vm_compute. reflexivity.
  - reflexivity.
Defined.

(** The placeholders 55 and 56 share test case 123: one dict for both, with
    the id 56. *)
Lemma duplicate_points_share_dict_witness :
  [0; 3; 0] !! 0 = Some 0 ∧ [0; 3; 0] !! 2 = Some 0 ∧
  field (heap merged_mixed) 0 "id" = Some (JInt 56).
Proof.
  destruct (duplicate_points_share_dict ado_client (JInt 9) results mixed
              (listing placeholders) [ok JNull] placeholders [0; 3; 0]
              merged_mixed 0 2 (point 55 "123") (point 56 "123") "123" 0)
    as (H0 & H2 & _ & Hlast).
  - exact results_bound_mixed.
  - reflexivity.
  - vm_compute. reflexivity.
  - exact process_mixed.
  - lia.
  - reflexivity.
  - reflexivity.
  - vm_compute. reflexivity.
  - vm_compute. reflexivity.
  - reflexivity.
  - split_and!; [exact H0|exact H2|].
    destruct (Hlast) with (m := 2) (r := point 56 "123")
      as (pid & Hpid & Hfield).
    + intros k' Hk'. unfold results in Hk'.
      apply lookup_insert_Some in Hk'
        as [[<- _]|[_ [_ [=]]%lookup_singleton_Some]]. done.
    + reflexivity.
    + vm_compute. reflexivity.
    + intros m' r' Hm' Hr'. apply lookup_lt_Some in Hr'. simpl in Hr'. lia.
    + rewrite Hfield. f_equal. vm_compute in Hpid. congruence.
Defined.

(** ** The further properties, on the scenarios *)

Lemma placeholders_ready :
  ∀ p, p ∈ placeholders → point_ready results (heap mixed) p.
Proof.
  intros p Hp. unfold placeholders in Hp.
  repeat (apply elem_of_cons in Hp as [->|Hp]);
    [| | |by apply elem_of_nil in Hp].
  - split_and!; [by exists "123"|by exists (JInt 55)|].
    intros l Hl. vm_compute in Hl. injection Hl as <-.
    eexists. split; [reflexivity|]. by exists (JStr "Failed").
  - split_and!; [by exists "999"|by exists (JInt 77)|].
    intros l Hl. vm_compute in Hl. discriminate.
  - split_and!; [by exists "123"|by exists (JInt 56)|].
    intros l Hl. vm_compute in Hl. injection Hl as <-.
    eexists. split; [reflexivity|]. by exists (JStr "Failed").
Qed.

Lemma process_test_results_returns_witness :
  ∃ payload st',
    process_test_results ado_client (JInt 9) results mixed
    = (inr payload, st').
Proof.
  apply (process_test_results_returns ado_client (JInt 9) results mixed
           (listing placeholders) [ok JNull] placeholders).
  - reflexivity.
  - vm_compute. reflexivity.
  - exact placeholders_ready.
Defined.

Lemma main_completion_state_witness :
  ∃ earlier run_id records,
    sent (main "https://dev.azure.com/org/" "/proj" "token" "B" "S" ∅
            "t1" "t2" unmatched_run).2
    = earlier
      ++ [Request PATCH (results_url ado_client run_id)
            (Some (JArr records));
          completion_request ado_client run_id
            (if forallb record_passed records
             then "Completed" else "NeedsInvestigation") "t2"].
Proof.
  apply (main_completion_state "https://dev.azure.com/org/" "/proj" "token"
           "B" "S" ∅ "t1" "t2" unmatched_run).
  - apply results_bound_empty.
  - vm_compute. reflexivity.
Defined.

Lemma http_error_before_body_witness :
  let st := start [] [Response 404 "missing" None] in
  get_test_plan_id ado_client "B" st
  = (inl (HTTPError 404),
     answered (Request GET (plans_url ado_client) None) st) ∧
  process_test_results ado_client (JInt 9) ∅ st
  = (inl (HTTPError 404),
     answered (Request GET (results_url ado_client (JInt 9)) None) st).
Proof.
  cbn zeta.
  destruct (http_error_before_body ado_client
              (start [] [Response 404 "missing" None])
              (Response 404 "missing" None) [] "B" "B" "S" (JInt 2)
              (JInt 10) [] (JInt 9) ∅ "now")
    as (Hplan & _ & _ & _ & _ & _ & Hmerge).
  - reflexivity.
  - simpl. lia.
  - split; [exact Hplan|exact Hmerge].
Defined.

Lemma get_test_points_ids_witness :
  (get_test_points ado_client (JInt 2) (JInt 10)
     (start [] [listing [named 55 "p"; named 56 "q"]])).1
  = inr [JInt 55; JInt 56].
Proof.
  destruct (get_test_points_ids ado_client (JInt 2) (JInt 10)
              (start [] [listing [named 55 "p"; named 56 "q"]])
              (listing [named 55 "p"; named 56 "q"]) []
              [named 55 "p"; named 56 "q"]) as (Hiff & _).
  - reflexivity.
  - vm_compute. reflexivity.
  - apply Hiff. repeat constructor.
Defined.

Lemma main_creates_run_for_points_read_witness :
  ∃ body later,
    sent (main "https://dev.azure.com/org/" "/proj" "token" "B" "S" ∅
            "t1" "t2" unmatched_run).2
    = sent unmatched_run
      ++ [Request GET (plans_url ado_client) None;
          Request GET (suites_url ado_client (JInt 2)) None;
          Request GET (points_url ado_client (JInt 2) (JInt 10)) None;
          Request POST (runs_url ado_client) (Some (JObj body))]
      ++ later ∧
    body !! "plan" = Some (JObj {[ "id" := JInt 2 ]}) ∧
    body !! "pointIds" = Some (JArr [JInt 77]) ∧
    body !! "automated" = Some (JBool true) ∧
    body !! "name" = Some (JStr ("Automation Test Run - " +:+ "S")) ∧
    length later ≤ 3.
Proof.
  apply (main_creates_run_for_points_read "https://dev.azure.com/org/"
           "/proj" "token" "B" "S" ∅ "t1" "t2" unmatched_run
           plans suites (listing [named 77 "p"])
           [created; listing [point 77 "999"]; ok JNull; ok JNull]
           [named 1 "A"; named 2 "B"] [named 10 "S"] [named 77 "p"]
           (JInt 2) (JInt 10) [JInt 77]).
  - reflexivity.
  - vm_compute. reflexivity.
  - vm_compute. reflexivity.
  - vm_compute. reflexivity.
  - vm_compute. reflexivity.
  - vm_compute. reflexivity.
  - repeat constructor.
Defined.

Lemma process_test_results_flag_exact_witness :
  is_failure merged_mixed
  = is_failure mixed
    || negb (forallb record_passed (deref (heap merged_mixed) <$> [0; 3; 0])).
Proof.
  exact (process_test_results_flag_exact ado_client (JInt 9) results mixed
           [0; 3; 0] merged_mixed results_bound_mixed process_mixed).
Defined.

Lemma served_mixed : served (listing placeholders) = Some placeholders.
Proof. vm_compute. reflexivity. Qed.

Lemma unmatched_points_get_own_dicts_witness :
  length [0; 3; 0] = length placeholders ∧
  heap mixed !! 3 = None ∧ [0; 3; 0] !! 0 ≠ Some 3 ∧ [0; 3; 0] !! 2 ≠ Some 3.
Proof.
  destruct (unmatched_points_get_own_dicts ado_client (JInt 9) results mixed
              (listing placeholders) [ok JNull] placeholders [0; 3; 0]
              merged_mixed results_bound_mixed eq_refl served_mixed
              process_mixed) as [Hlen Hown].
  destruct (Hown 1 (point 77 "999") 3) as [Hnew Hother].
  - reflexivity.
  - vm_compute. reflexivity.
  - reflexivity.
  - split_and!; [exact Hlen|exact Hnew|apply Hother; lia|apply Hother; lia].
Defined.

Lemma results_bound_broken : results_bound results (heap broken).
Proof.
  intros k l Hl. unfold results in Hl.
  apply lookup_insert_Some in Hl as [[_ <-]|[_ [_ <-]%lookup_singleton_Some]];
    simpl; lia.
Qed.

(** The result of test case 456 has no outcome: the call raises, and the
    result has got the id 56, the state and the priority all the same. *)
Lemma unmergeable_result_raises_witness :
  (process_test_results ado_client (JInt 9) results broken).1
  = inl (KeyError "outcome") ∧
  heap (process_test_results ado_client (JInt 9) results broken).2 !! 1
  = Some (JObj (stamped {[ "priority" := JInt 3 ]} (JInt 56))).
Proof.
  destruct (unmergeable_result_raises ado_client (JInt 9) results broken
              (listing [point 55 "123"; point 56 "456"]) []
              [point 55 "123"] (point 56 "456") [] 1 no_outcome_record)
    as [_ Hkey].
  - exact results_bound_broken.
  - reflexivity.
  - vm_compute. reflexivity.
  - intros q ->%list_elem_of_singleton.
    split_and!; [by exists "123"|by exists (JInt 55)|].
    intros l Hl. vm_compute in Hl. injection Hl as <-.
    eexists. split; [reflexivity|]. by exists (JStr "Passed").
  - vm_compute. reflexivity.
  - reflexivity.
  - apply (Hkey {[ "priority" := JInt 3 ]} (JInt 56)).
    + vm_compute. reflexivity.
    + reflexivity.
    + reflexivity.
Defined.

Lemma value_that_is_no_list_witness :
  let st := start [] [ok (obj [("value", JStr EmptyString)])] in
  process_test_results ado_client (JInt 9) ∅ st
  = (inr [], answered (Request GET (results_url ado_client (JInt 9)) None) st).
Proof.
  cbn zeta.
  destruct (value_that_is_no_list ado_client (JInt 9) ∅
              (start [] [ok (obj [("value", JStr EmptyString)])])
              (ok (obj [("value", JStr EmptyString)])) []
              (obj [("value", JStr EmptyString)]) (JStr EmptyString))
    as [Hempty _].
  - reflexivity.
  - simpl. lia.
  - reflexivity.
  - vm_compute. reflexivity.
  - discriminate.
  - apply Hempty. by right.
Defined.

Lemma results_bound_mixed_twice : results_bound results (heap mixed_twice).
Proof. exact results_bound_mixed. Qed.

(** The second merge of the same placeholders: the record of test case 123
    and the flag are as the first merge left them. *)
Lemma second_merge_changes_nothing_witness :
  let st1 := (process_test_results ado_client (JInt 9) results mixed_twice).2 in
  let st2 := (process_test_results ado_client (JInt 9) results st1).2 in
  heap st2 !! 0 = heap st1 !! 0 ∧ heap st2 !! 3 = heap st1 !! 3 ∧
  is_failure st2 = is_failure st1 ∧
  [0; 6; 0] !! 0 = [0; 3; 0] !! 0.
Proof.
  cbn zeta.
  set (st1 := (process_test_results ado_client (JInt 9) results
                 mixed_twice).2).
  set (st2 := (process_test_results ado_client (JInt 9) results st1).2).
  destruct (second_merge_changes_nothing ado_client (JInt 9) results
              mixed_twice (listing placeholders) [listing placeholders]
              placeholders [0; 3; 0] st1 (listing placeholders) []
              [0; 6; 0] st2) as (Hsame & Hflag & Hpay).
  - exact results_bound_mixed_twice.
  - reflexivity.
  - exact served_mixed.
  - vm_compute. reflexivity.
  - vm_compute. reflexivity.
  - exact served_mixed.
  - vm_compute. reflexivity.
  - split_and!.
    + apply Hsame. vm_compute. lia.
    + apply Hsame. vm_compute. lia.
    + exact Hflag.
    + apply (Hpay 0 (point 55 "123")); [reflexivity|].
      exists 0. vm_compute. reflexivity.
Defined.

(** The test case 123 has a result, and the placeholder whose test-case id
    is the number 123 does not get it. *)
Lemma non_string_test_case_id_never_matches_witness :
  ∃ l,
    [1] !! 0 = Some l ∧ heap numbered !! l = None ∧
    field (heap (process_test_results ado_client (JInt 9) {[ "123" := 0 ]}
                   numbered).2) l "outcome"
    = Some (JStr "NotExecuted") ∧
    is_failure (process_test_results ado_client (JInt 9) {[ "123" := 0 ]}
                  numbered).2 = true.
Proof.
  apply (non_string_test_case_id_never_matches ado_client (JInt 9)
           {[ "123" := 0 ]} numbered (listing [numbered_point]) []
           [numbered_point] [1] _ 0 numbered_point (JInt 123)).
  - apply results_bound_singleton. simpl. lia.
  - reflexivity.
  - vm_compute. reflexivity.
  - vm_compute. reflexivity.
  - reflexivity.
  - vm_compute. reflexivity.
  - discriminate.
Defined.

(** The plan B is there, after a plan without a name: [KeyError]. *)
Lemma name_resolution_unreadable_item_witness :
  (get_test_plan_id ado_client "B" nameless).1 = inl (KeyError "name").
Proof.
  destruct (name_resolution_unreadable_item ado_client (JInt 1) "B" nameless
              (listing [obj [("id", JInt 1)]; named 2 "B"]) []
              [] (obj [("id", JInt 1)]) [named 2 "B"])
    as (_ & _ & Hkey).
  - reflexivity.
  - vm_compute. reflexivity.
  - by intros x ?%elem_of_nil.
  - apply (Hkey (list_to_map [("id", JInt 1)])); [reflexivity|].
    vm_compute. reflexivity.
Defined.

(** No plan C: one GET, and that is all. *)
Lemma name_not_found_aborts_witness :
  main "https://dev.azure.com/org/" "/proj" "token" "C" "S" ∅ "t1" "t2"
    (start [] [plans; suites])
  = (inl (ValueError [Lit "Test plan '"; Fmt (JStr "C"); Lit "' not found"]),
     State false [] [Request GET (plans_url ado_client) None] [suites]).
Proof.
  destruct (name_not_found_aborts "https://dev.azure.com/org/" "/proj"
              "token" "C" "S" ∅ "t1" "t2" (start [] [plans; suites])
              plans [suites] [named 1 "A"; named 2 "B"]) as [Hplan _].
  - reflexivity.
  - vm_compute. reflexivity.
  - apply Hplan. intros x Hx.
    apply elem_of_cons in Hx as [->|Hx];
      [|apply list_elem_of_singleton in Hx as ->].
    + exists (JStr "A"). split; [reflexivity|discriminate].
    + exists (JStr "B"). split; [reflexivity|discriminate].
Defined.

(** The placeholders 55 and 56 of test case 123: one record, posted twice. *)
Lemma shared_dict_is_posted_twice_witness :
  ∃ posted record,
    sent (post_test_results ado_client (JInt 9) [0; 3; 0] merged_mixed).2
    = sent merged_mixed
      ++ [Request PATCH (results_url ado_client (JInt 9))
            (Some (JArr posted))] ∧
    length posted = length placeholders ∧
    posted !! 0 = Some record ∧ posted !! 2 = Some record ∧
    ∃ fields, record = JObj fields ∧ heap merged_mixed !! 0 = Some record.
Proof.
  apply (shared_dict_is_posted_twice ado_client (JInt 9) results mixed
           (listing placeholders) [ok JNull] placeholders [0; 3; 0]
           merged_mixed 0 2 (point 55 "123") (point 56 "123") "123" 0).
  - exact results_bound_mixed.
  - reflexivity.
  - exact served_mixed.
  - exact process_mixed.
  - reflexivity.
  - reflexivity.
  - vm_compute. reflexivity.
  - vm_compute. reflexivity.
  - reflexivity.
Defined.

(** The result of test case 456, which no placeholder is for. *)
Lemma objects_not_found_are_left_witness :
  heap merged_mixed !! 1 = heap mixed !! 1 ∧ (1 ∉ [0; 3; 0]).
Proof.
  apply (objects_not_found_are_left ado_client (JInt 9) results mixed
           (listing placeholders) [ok JNull] placeholders [0; 3; 0]
           merged_mixed 1 results_bound_mixed eq_refl served_mixed
           process_mixed).
  - simpl. lia.
  - intros p Hp. unfold placeholders in Hp.
    repeat (apply elem_of_cons in Hp as [->|Hp]); [| | |by apply elem_of_nil in Hp];
      by vm_compute.
Defined.
